(** * restic: the FUSE virtual file and the WebDAV backend

    A shallow embedding of [src/restic/fuse/file.go] (the virtual file that
    presents a node's blobs as one byte stream) and of the WebDAV backend
    (its configuration and its calls over HTTP),
    together with the properties the specification states about them and
    further properties read off the code.

    Conventions.
    - Go's [uint], [uint64], [int] and [int64] are 64 bits wide (the amd64
      targets of the build tags); they are modelled as [Z] and every
      conversion and every operation that can wrap is written out with
      [uint64] and [int64] below.
    - A Go slice is a record of its backing array (from the slice's first
      element on) and its visible length; a [nil] slice is [None].
    - A method of the file returns an [outcome]: its result, its error, or
      the run-time panic it hits. The repository's methods return Go's
      pair of a value and an error ([None] is [nil]).
    - [sync.Pool] and the calls to the repository are effects: the pool and a
      log of the [LoadBlob] calls are threaded through as a [world]. *)

From Stdlib Require Import ZArith Lia String DecimalString.
From Stdlib Require Import Init.Byte.
From stdpp Require Import base list.

Open Scope Z_scope.

(** ** Go integers *)

Definition uint64 (z : Z) : Z := z mod 2 ^ 64.
Definition int64 (z : Z) : Z := (z + 2 ^ 63) mod 2 ^ 64 - 2 ^ 63.
Definition uint (z : Z) : Z := uint64 z.
Definition maxInt : Z := 2 ^ 63 - 1.

(** ** Errors, panics and slices *)

Definition error : Type := string.

Definition errors_New (msg : string) : error := msg.

Inductive outcome (A : Type) : Type :=
| Ok (a : A)
| Err (e : error)
| Panic (msg : string).
Arguments Ok {A} a.
Arguments Err {A} e.
Arguments Panic {A} msg.

Record slice : Type := mkSlice {
  arr : list Byte.byte;   (* the backing array, from the slice's start *)
  len : Z                 (* len(s) *)
}.

Definition cap (s : slice) : Z := Z.of_nat (length (arr s)).

(** The bytes one sees through the slice. *)
Definition bytes (s : slice) : list Byte.byte := take (Z.to_nat (len s)) (arr s).

(** [make([]byte, n)]: it panics on a negative length and on one that no
    [int] holds. The run time also refuses lengths above what its
    allocator can address, a limit of the platform that is not modelled:
    a buffer made here may be longer than one the run time would make. *)
Definition make (n : Z) : outcome slice :=
  if (n <? 0) || (maxInt <? n) then Panic "makeslice: len out of range"
  else Ok (mkSlice (replicate (Z.to_nat n) Byte.x00) n).

(** [s[:n]] *)
Definition reslice (s : slice) (n : Z) : outcome slice :=
  if (n <? 0) || (cap s <? n) then Panic "slice bounds out of range"
  else Ok (mkSlice (arr s) n).

(** ** The virtual file, over an abstract blob identifier *)

Section File.

(** [restic.ID] is declared outside the files at hand; the code only passes
    identifiers on to the repository. *)
Context {ID : Type}.

Inductive BlobType : Type := InvalidBlob | DataBlob | TreeBlob.

(** The fields of [restic.Node] that the file uses. *)
Record Node : Type := mkNode {
  Name : string;
  Inode : Z;
  Mode : Z;
  UID : Z;
  GID : Z;
  AccessTime : Z;
  ChangeTime : Z;
  ModTime : Z;
  Size : Z;               (* uint64 *)
  Content : list ID
}.

(** [fuse.Attr], the fields [Attr] writes. *)
Record fuse_Attr : Type := mkAttr {
  a_Inode : Z;
  a_Mode : Z;
  a_Size : Z;             (* uint64 *)
  a_Blocks : Z;           (* uint64 *)
  a_BlockSize : Z;        (* uint32 *)
  a_Uid : Z;
  a_Gid : Z;
  a_Atime : Z;
  a_Ctime : Z;
  a_Mtime : Z
}.

Record ReadRequest : Type := mkReq {
  req_Offset : Z;         (* int64 *)
  req_Size : Z            (* int *)
}.

Record ReadResponse : Type := mkResp { resp_Data : slice }.

(** The default block size to report in stat *)
Definition blockSize : Z := 512.

(** [BlobLoader]: [LoadBlob] gets the buffer's contents and gives back the
    number of bytes loaded, the error, and the buffer's new contents. *)
Record BlobLoader : Type := mkLoader {
  LookupBlobSize : ID -> BlobType -> Z * option error;
  LoadBlob : BlobType -> ID -> list Byte.byte -> Z * option error * list Byte.byte
}.

Record file : Type := mkFile {
  repo : BlobLoader;
  node : Node;            (* the pointee of [f.node] *)
  ownerIsRoot : bool;
  sizes : list Z;
  blobs : list (option slice)
}.

Definition defaultBlobSize : Z := 128 * 1024.

(** The process-wide [blobPool] and the log of [LoadBlob] calls. *)
Record world : Type := mkWorld {
  blobPool : list slice;
  loaded : list ID
}.

(** [blobPool.Get()]: an idle buffer, or a new one of the default size.
    [sync.Pool] may hand out any of its idle buffers and may drop them; the
    pool is a stack here, and what is proved below is proved for every
    contents of the pool. *)
Definition poolGet (w : world) : outcome slice * world :=
  match blobPool w with
  | [] => (make defaultBlobSize, w)
  | b :: rest => (Ok b, mkWorld rest (loaded w))
  end.

(** [blobPool.Put(b)] *)
Definition poolPut (b : slice) (w : world) : world :=
  mkWorld (b :: blobPool w) (loaded w).

Definition logLoad (id : ID) (w : world) : world :=
  mkWorld (blobPool w) (loaded w ++ [id]).

(** *** newFile *)

(** The loop of [newFile]: one size lookup per identifier, the sizes in
    order and their sum accumulated in a [uint64]. *)
Fixpoint lookupSizes (r : BlobLoader) (content : list ID) (acc : Z)
  : outcome (list Z * Z) :=
  match content with
  | [] => Ok ([], acc)
  | id :: rest =>
      match LookupBlobSize r id DataBlob with
      | (_, Some err) => Err err
      | (size, None) =>
          match lookupSizes r rest (uint64 (acc + uint64 size)) with
          | Ok (ss, total) => Ok (size :: ss, total)
          | Err e => Err e
          | Panic m => Panic m
          end
      end
  end.

Definition setSize (n : Node) (sz : Z) : Node :=
  mkNode (Name n) (Inode n) (Mode n) (UID n) (GID n)
         (AccessTime n) (ChangeTime n) (ModTime n) sz (Content n).

Definition newFile (r : BlobLoader) (n : Node) (root : bool) : outcome file :=
  match lookupSizes r (Content n) 0 with
  | Ok (ss, total) =>
      let n' := if negb (total =? Size n) then setSize n total else n in
      Ok (mkFile r n' root ss (replicate (length (Content n)) None))
  | Err e => Err e
  | Panic m => Panic m
  end.

(** *** Attr *)

Definition Attr (f : file) (a : fuse_Attr) : fuse_Attr * option error :=
  let n := node f in
  (mkAttr (Inode n) (Mode n) (Size n)
          (uint64 (Size n / blockSize + 1)) blockSize
          (if negb (ownerIsRoot f) then UID n else a_Uid a)
          (if negb (ownerIsRoot f) then GID n else a_Gid a)
          (AccessTime n) (ChangeTime n) (ModTime n),
   None).

(** *** getBlobAt *)

Definition setBlob (f : file) (i : Z) (b : option slice) : file :=
  mkFile (repo f) (node f) (ownerIsRoot f) (sizes f)
         (<[Z.to_nat i := b]> (blobs f)).

(** [f.blobs[i]], [f.sizes[i]], [f.node.Content[i]] *)
Definition index {A : Type} (l : list A) (i : Z) : outcome A :=
  if i <? 0 then Panic "index out of range"
  else match l !! Z.to_nat i with
       | Some x => Ok x
       | None => Panic "index out of range"
       end.

(** The buffer [LoadBlob] is given: the pooled one stretched to its
    capacity, or a new one of the blob's size when that is too small. *)
Definition pickBuffer (f : file) (i : Z) (w : world) : outcome slice * world :=
  match poolGet w with
  | (Ok buf, w1) =>
      match reslice buf (cap buf) with
      | Ok buf =>
          match index (sizes f) i with
          | Ok size =>
              if uint (len buf) <? size then
                let w2 :=
                  if len buf >? defaultBlobSize then poolPut buf w1 else w1 in
                (make size, w2)
              else (Ok buf, w1)
          | Err e => (Err e, w1)
          | Panic m => (Panic m, w1)
          end
      | Err e => (Err e, w1)
      | Panic m => (Panic m, w1)
      end
  | (Err e, w1) => (Err e, w1)
  | (Panic m, w1) => (Panic m, w1)
  end.

Definition getBlobAt (f : file) (i : Z) (w : world)
  : outcome slice * file * world :=
  match index (blobs f) i with
  | Ok (Some b) => (Ok b, f, w)
  | Ok None =>
      match pickBuffer f i w with
      | (Ok buf, w1) =>
          match index (Content (node f)) i with
          | Ok id =>
              let w2 := logLoad id w1 in
              match LoadBlob (repo f) DataBlob id (arr buf) with
              | (_, Some err, _) => (Err err, f, w2)
              | (n, None, arr') =>
                  (* f.blobs[i] = buf[:n] *)
                  match reslice buf n with
                  | Ok _ =>
                      let b := mkSlice arr' n in
                      (Ok b, setBlob f i (Some b), w2)
                  | Err e => (Err e, f, w2)
                  | Panic m => (Panic m, f, w2)
                  end
              end
          | Err e => (Err e, f, w1)
          | Panic m => (Panic m, f, w1)
          end
      | (Err e, w1) => (Err e, f, w1)
      | (Panic m, w1) => (Panic m, f, w1)
      end
  | Err e => (Err e, f, w)
  | Panic m => (Panic m, f, w)
  end.

(** *** Read *)

(** "Skip blobs before the offset": [rest] is [f.sizes[startContent:]]. *)
Fixpoint skipBlobs (rest : list Z) (offset startContent : Z)
  : outcome (Z * Z) :=
  match rest with
  | [] => Panic "index out of range"
  | size :: rest' =>
      if offset >? int64 size
      then skipBlobs rest' (int64 (offset - int64 size)) (startContent + 1)
      else Ok (offset, startContent)
  end.

(** The state of the copy loop: the bytes written to [resp.Data] so far
    ([dst] is the window right behind them, [dstLen] long), and the
    counters. *)
Record copyState : Type := mkCopy {
  out : list Byte.byte;
  dstLen : Z;
  readBytes : Z;
  remainingBytes : Z
}.

(** The copy loop; [n] counts the indices [i < len(f.sizes)] still to
    come. *)
Fixpoint readLoop (n : nat) (i offset : Z) (c : copyState) (f : file) (w : world)
  : outcome copyState * file * world :=
  match n with
  | O => (Ok c, f, w)
  | S n' =>
      if remainingBytes c >? 0 then
        match getBlobAt f i w with
        | (Ok b, f1, w1) =>
            let blob := bytes b in
            let cut :=
              if offset >? 0 then
                if Z.of_nat (length blob) <? offset
                then Panic "slice bounds out of range"
                else Ok (drop (Z.to_nat offset) blob, 0)
              else Ok (blob, offset) in
            match cut with
            | Ok (blob, offset) =>
                let copied := Z.min (dstLen c) (Z.of_nat (length blob)) in
                readLoop n' (i + 1) offset
                  (mkCopy (out c ++ take (Z.to_nat copied) blob)
                          (dstLen c - copied)
                          (readBytes c + copied)
                          (remainingBytes c - copied))
                  f1 w1
            | Err e => (Err e, f1, w1)
            | Panic m => (Panic m, f1, w1)
            end
        | (Err e, f1, w1) => (Err e, f1, w1)
        | (Panic m, f1, w1) => (Panic m, f1, w1)
        end
      else (Ok c, f, w)
  end.

Definition errOffset : error := errors_New "offset greater than files size".

Definition Read (f : file) (req : ReadRequest) (resp : ReadResponse) (w : world)
  : outcome ReadResponse * file * world :=
  let offset := req_Offset req in
  if uint64 offset >? Size (node f) then (Err errOffset, f, w)
  else if Size (node f) =? 0 then
    match reslice (resp_Data resp) 0 with
    | Ok d => (Ok (mkResp d), f, w)
    | Err e => (Err e, f, w)
    | Panic m => (Panic m, f, w)
    end
  else
    match skipBlobs (sizes f) offset 0 with
    | Ok (offset, startContent) =>
        match reslice (resp_Data resp) (req_Size req) with
        | Ok dst =>
            let n := Z.to_nat (Z.of_nat (length (sizes f)) - startContent) in
            match readLoop n startContent offset
                    (mkCopy [] (len dst) 0 (req_Size req)) f w with
            | (Ok c, f1, w1) =>
                let data :=
                  mkSlice (out c ++ drop (length (out c)) (arr (resp_Data resp)))
                          (len (resp_Data resp)) in
                match reslice data (readBytes c) with
                | Ok d => (Ok (mkResp d), f1, w1)
                | Err e => (Err e, f1, w1)
                | Panic m => (Panic m, f1, w1)
                end
            | (Err e, f1, w1) => (Err e, f1, w1)
            | (Panic m, f1, w1) => (Panic m, f1, w1)
            end
        | Err e => (Err e, f, w)
        | Panic m => (Panic m, f, w)
        end
    | Err e => (Err e, f, w)
    | Panic m => (Panic m, f, w)
    end.

(** *** Release *)

Fixpoint releaseBlobs (bs : list (option slice)) (w : world)
  : list (option slice) * world :=
  match bs with
  | [] => ([], w)
  | Some b :: rest =>
      let '(rest', w') := releaseBlobs rest (poolPut b w) in
      (None :: rest', w')
  | None :: rest =>
      let '(rest', w') := releaseBlobs rest w in
      (None :: rest', w')
  end.

Definition Release (f : file) (w : world) : option error * file * world :=
  let '(bs, w') := releaseBlobs (blobs f) w in
  (None, mkFile (repo f) (node f) (ownerIsRoot f) (sizes f) bs, w').

(** ** What a virtual file presents *)

Implicit Types (f : file) (w : world) (r : BlobLoader).
Implicit Types (chunks : list (list Byte.byte)) (data : list Byte.byte).

Definition lenZ (data : list Byte.byte) : Z := Z.of_nat (length data).

Definition sumZ (ss : list Z) : Z := foldr Z.add 0 ss.

(** [f] presents the byte sequences [chunks], one per identifier of the
    node's content: the sizes are the chunks' lengths, the node's size is
    the length of their concatenation, a cached blob shows its chunk, and
    loading the [i]-th blob into a buffer that is long enough puts exactly
    the [i]-th chunk there. *)
Record VirtualFile f chunks : Prop := mkVF {
  vf_content : length (Content (node f)) = length chunks;
  vf_blobs : length (blobs f) = length chunks;
  vf_sizes : sizes f = lenZ <$> chunks;
  vf_fits : forall i data, chunks !! i = Some data -> lenZ data <= maxInt;
  vf_size : Size (node f) = lenZ (concat chunks);
  vf_range : Size (node f) < 2 ^ 64;
  vf_cache : forall i b,
    blobs f !! i = Some (Some b) -> chunks !! i = Some (bytes b);
  vf_load : forall i id data buf,
    Content (node f) !! i = Some id -> chunks !! i = Some data ->
    (length data <= length buf)%nat ->
    exists arr',
      LoadBlob (repo f) DataBlob id buf = (lenZ data, None, arr') /\
      take (length data) arr' = data
}.

(** The bytes [Read] is to return: at most [size] bytes of the content
    from [offset] on. *)
Definition contentSlice chunks (offset size : Z) : list Byte.byte :=
  take (Z.to_nat size) (drop (Z.to_nat offset) (concat chunks)).

(** The repository holds [chunks] under the identifiers [content]: each
    size lookup gives the chunk's length, and each load into a buffer that
    is long enough gives exactly the chunk. *)
Definition presents r (content : list ID) chunks : Prop :=
  Forall2
    (fun id data =>
       LookupBlobSize r id DataBlob = (lenZ data, None) /\
       lenZ data <= maxInt /\
       forall buf, (length data <= length buf)%nat ->
         exists arr',
           LoadBlob r DataBlob id buf = (lenZ data, None, arr') /\
           take (length data) arr' = data)
    content chunks.



(** What happens to a file handle between its creation and its release:
    calls on the handle, and other handles leaving the pool and the log in
    another state. *)
Inductive op : Type :=
| OpAttr (a : fuse_Attr)
| OpGetBlobAt (i : Z)
| OpRead (req : ReadRequest) (resp : ReadResponse)
| OpOthers (w' : world).

Definition runOp (o : op) (s : file * world) : file * world :=
  match o with
  | OpAttr _ => s
  | OpOthers w' => (s.1, w')
  | OpGetBlobAt i => let '(_, f, w) := getBlobAt s.1 i s.2 in (f, w)
  | OpRead req resp => let '(_, f, w) := Read s.1 req resp s.2 in (f, w)
  end.

Definition runOps (os : list op) (s : file * world) : file * world :=
  foldl (fun s o => runOp o s) s os.

End File.

(** ** Repositories and nodes for the examples *)

(** A repository that holds its blobs in memory, under numeric
    identifiers. *)
Definition memRepo (store : nat -> option (list Byte.byte)) : @BlobLoader nat :=
  mkLoader
    (fun id _ =>
       match store id with
       | Some d => (Z.of_nat (length d), None)
       | None => (0, Some "blob not found"%string)
       end)
    (fun _ id buf =>
       match store id with
       | Some d =>
           if (length buf <? length d)%nat
           then (0, Some "buffer too small"%string, buf)
           else (Z.of_nat (length d), None, d ++ drop (length d) buf)
       | None => (0, Some "blob not found"%string, buf)
       end).

(** Blob 1 is 100 bytes of [01], blob 2 is 50 bytes of [02]. *)
Definition twoBlobs (id : nat) : option (list Byte.byte) :=
  match id with
  | 1%nat => Some (replicate 100 Byte.x01)
  | 2%nat => Some (replicate 50 Byte.x02)
  | _ => None
  end.

(** A repository that knows every blob's size (100) and fails every load. *)
Definition unreadableRepo : @BlobLoader nat :=
  mkLoader (fun _ _ => (100, None))
           (fun _ _ buf => (0, Some "load failed"%string, buf)).

(** A repository whose blobs are all [2^63] bytes long. *)
Definition hugeRepo : @BlobLoader nat :=
  mkLoader (fun _ _ => (2 ^ 63, None))
           (fun _ _ buf => (0, Some "load failed"%string, buf)).

Definition exampleNode (declared : Z) (content : list nat) : @Node nat :=
  mkNode "file" 1 420 1000 1000 0 0 0 declared content.

Definition emptyWorld : @world nat := mkWorld [] [].

(** The response buffer the FUSE server hands to [Read]: no bytes, room
    for [size]. *)
Definition freshResponse (size : nat) : ReadResponse :=
  mkResp (mkSlice (replicate size Byte.x00) 0).

Definition zeroAttr : fuse_Attr := mkAttr 0 0 0 0 0 0 0 0 0 0.

Definition twoChunks : list (list Byte.byte) :=
  [replicate 100 Byte.x01; replicate 50 Byte.x02].

(** The file [newFile] makes of a node that declares 200 bytes over the two
    blobs. *)
Definition exampleFile : @file nat :=
  mkFile (memRepo twoBlobs) (exampleNode 150 [1; 2]%nat) false
         [100; 50] [None; None].

Definition emptyFile : @file nat :=
  mkFile (memRepo twoBlobs) (exampleNode 0 []) false [] [].

Definition defaultBuffer : slice :=
  mkSlice (replicate (Z.to_nat defaultBlobSize) Byte.x00) defaultBlobSize.

(** A file of one blob over the repository that fails every load. *)
Definition unreadableFile : @file nat :=
  mkFile unreadableRepo (exampleNode 100 [1%nat]) false [100] [None].

(** A repository that knows blob 1 (100 bytes) and blob 2 (50 bytes) and
    can load blob 2 only. *)
Definition lastBlobRepo : @BlobLoader nat :=
  mkLoader
    (fun id _ => match id with 1%nat => (100, None) | _ => (50, None) end)
    (fun _ id buf =>
       match id with
       | 2%nat =>
           if (length buf <? 50)%nat
           then (0, Some "buffer too small"%string, buf)
           else (50, None, replicate 50 Byte.x02 ++ drop 50 buf)
       | _ => (0, Some "load failed"%string, buf)
       end).

(** The file [newFile] makes of the two blobs over that repository. *)
Definition lastBlobFile : @file nat :=
  mkFile lastBlobRepo (exampleNode 150 [1; 2]%nat) false
         [100; 50] [None; None].

(** ** The WebDAV multistatus document *)

(** [Multistatus] of schema.go: a list of responses, each with its [HREF].
    The type declares no other field; [List] of the backend ranges over
    [list.Href], which this type does not have, so [List] has no
    embedding here. *)
Record response : Type := mkResponse { HREF : string }.

Record Multistatus : Type := mkMultistatus { Response : list response }.

(** ** Facts about the Go primitives *)

(** ** The WebDAV backend *)

(** [errors.Wrap] and [errors.Errorf] of restic/errors (they are those of
    github.com/pkg/errors): the message is put before the error's own,
    and wrapping [nil] gives [nil]. *)
Definition wrapError (e : error) (msg : string) : error :=
  (msg ++ ": " ++ e)%string.

Definition errors_Wrap (err : option error) (msg : string) : option error :=
  match err with
  | None => None
  | Some e => Some (wrapError e msg)
  end.

(** [%v] and [%d] of an integer. *)
Definition string_of_Z (z : Z) : string := NilZero.string_of_int (Z.to_int z).

(** [restic.Handle] ([restic.FileType] is a string type) and
    [restic.FileInfo]. *)
Record Handle : Type := mkHandle { h_Type : string; h_Name : string }.

Record FileInfo : Type := mkFileInfo { fi_Size : Z (* int64 *) }.

(** What the code uses of [http.Request] and [http.Response]; [Body] is
    what the body's reader yields before the end, [BodyClose] what
    [resp.Body.Close()] returns. *)
Record httpRequest : Type := mkRequest {
  Method : string;
  reqURL : string;
  reqBody : option (list Byte.byte);
  Header : list (string * string)
}.

Record httpResponse : Type := mkHTTPResponse {
  StatusCode : Z;
  ContentLength : Z;      (* int64 *)
  Body : list Byte.byte;
  BodyClose : option error
}.

(** [b.client]: the answers of the server. *)
Record httpClient : Type := mkClient {
  client_Do : httpRequest -> option httpResponse * option error;
  client_Head : string -> option httpResponse * option error
}.

Definition connLimit : Z := 10.

(** [io.ReadFull(body, p)]: [p] is filled, or the body ends before. *)
Definition io_ReadFull (body p : list Byte.byte)
  : Z * option error * list Byte.byte :=
  if (length p <=? length body)%nat
  then (Z.of_nat (length p), None, take (length p) body)
  else if (length body =? 0)%nat
       then (0, Some "EOF"%string, p)
       else (Z.of_nat (length body), Some "unexpected EOF"%string,
             body ++ drop (length body) p).

(** A call on the backend returns, stays blocked on [connChan], or
    panics. *)
Inductive call (A : Type) : Type :=
| Returns (a : A)
| Blocks
| Panics (msg : string).
Arguments Returns {A} a.
Arguments Blocks {A}.
Arguments Panics {A} msg.

(** What goes over the wire. *)
Inductive netEvent : Type :=
| EvHead (url : string)
| EvDo (req : httpRequest)
| EvClose.

(** The state a call works on: the number of permits in [b.connChan] and
    the events on the wire so far. *)
Record netState : Type := mkNet { tokens : Z; wire : list netEvent }.

Definition action (A : Type) : Type := netState -> call A * netState.

Definition result {A} (a : A) : action A := fun st => (Returns a, st).

Definition andThen {A B} (m : action A) (k : A -> action B) : action B :=
  fun st =>
    match m st with
    | (Returns a, st') => k a st'
    | (Blocks, st') => (Blocks, st')
    | (Panics msg, st') => (Panics msg, st')
    end.

Notation "x <-- m ;; k" := (andThen m (fun x => k))
  (at level 62, m at next level, right associativity).
Notation "m ;;; k" := (andThen m (fun _ => k))
  (at level 62, right associativity).

(** [<-b.connChan] *)
Definition recvPermit : action unit :=
  fun st => if tokens st <=? 0 then (Blocks, st)
            else (Returns tt, mkNet (tokens st - 1) (wire st)).

(** [b.connChan <- struct{}{}]; the channel has room for [connLimit]. *)
Definition sendPermit : action unit :=
  fun st => if connLimit <=? tokens st then (Blocks, st)
            else (Returns tt, mkNet (tokens st + 1) (wire st)).

Definition emit (e : netEvent) : action unit :=
  fun st => (Returns tt, mkNet (tokens st) (wire st ++ [e])).

Definition panics {A} (msg : string) : action A := fun st => (Panics msg, st).

(** A call keeps the permits at [st]: unless it stays blocked it leaves
    as many as it found, and it does not stay blocked when there is a
    permit to take and room to put it back. *)
Definition keepsPermits {A} (m : action A) (st : netState) : Prop :=
  ((m st).1 <> Blocks -> tokens (m st).2 = tokens st) /\
  (0 < tokens st <= connLimit -> (m st).1 <> Blocks).

Definition nilDereference : string :=
  "invalid memory address or nil pointer dereference".

Section Backend.

(** [url.URL], [path.Join], [url.Parse], [http.NewRequest], the constants
    of [restic.FileType], [backend.Paths] and [Handle.Valid] are declared
    outside the files at hand. *)
Context {URL : Type}.

Record library : Type := mkLibrary {
  url_Parse : string -> URL * option error;
  url_Path : URL -> string;
  url_setPath : URL -> string -> URL;
  url_String : URL -> string;
  path_Join : list string -> string;
  http_NewRequest :
    string -> string -> option (list Byte.byte) ->
    option httpRequest * option error;
  Handle_Valid : Handle -> option error;
  ConfigFile : string;
  DataFile : string;
  SnapshotFile : string;
  IndexFile : string;
  LockFile : string;
  KeyFile : string;
  Paths_Data : string;
  Paths_Snapshots : string;
  Paths_Index : string;
  Paths_Locks : string;
  Paths_Keys : string
}.

Variable L : library.

Record Config : Type := mkConfig { cfg_URL : URL }.

Definition ParseConfig (s : string) : outcome Config :=
  if negb (String.prefix "webdav:" s)
  then Err (errors_New "invalid WebDAV backend specification")
  else
    let s := substring 7 (String.length s - 7) s in
    match url_Parse L s with
    | (_, Some err) => Err (wrapError err "url.Parse")
    | (u, None) => Ok (mkConfig u)
    end.

(** restPath returns the path to the given resource. *)
Definition restPath (url : URL) (h : Handle) : string :=
  let '(dir, name) :=
    if String.eqb (h_Type h) (ConfigFile L) then (""%string, "config"%string)
    else if String.eqb (h_Type h) (DataFile L) then (Paths_Data L, h_Name h)
    else if String.eqb (h_Type h) (SnapshotFile L)
         then (Paths_Snapshots L, h_Name h)
    else if String.eqb (h_Type h) (IndexFile L) then (Paths_Index L, h_Name h)
    else if String.eqb (h_Type h) (LockFile L) then (Paths_Locks L, h_Name h)
    else if String.eqb (h_Type h) (KeyFile L) then (Paths_Keys L, h_Name h)
    else (h_Type h, h_Name h) in
  url_String L (url_setPath L url (path_Join L [url_Path L url; dir; name])).

Record webdavBackend : Type := mkBackend {
  b_url : URL;
  b_client : httpClient
}.

(** The loop of [Open] that fills [connChan]. *)
Fixpoint fillPermits (k : nat) : action unit :=
  match k with
  | O => result tt
  | S k' => sendPermit ;;; fillPermits k'
  end.

(** Open opens the REST backend with the given config; [net] is the
    client it makes. *)
Definition Open (net : httpClient) (cfg : Config)
  : call (webdavBackend * option error) * netState :=
  (fillPermits (Z.to_nat connLimit) ;;;
   result (mkBackend (cfg_URL cfg) net, None)) (mkNet 0 []).

Definition Location (b : webdavBackend) : string := url_String L (b_url b).

(** The deferred function of [Load] and [Save]: the body is closed, and
    the error of that is the result when there is no other. *)
Definition deferredClose (resp : option httpResponse) (err : option error)
  : action (option error) :=
  match resp with
  | None => result err
  | Some r =>
      emit EvClose ;;;
      result (match err with
              | None => errors_Wrap (BodyClose r) "Close"
              | Some _ => err
              end)
  end.

(** Stat returns information about a blob. *)
Definition Stat (b : webdavBackend) (h : Handle)
  : action (FileInfo * option error) :=
  match Handle_Valid L h with
  | Some err => result (mkFileInfo 0, Some err)
  | None =>
      recvPermit ;;;
      emit (EvHead (restPath (b_url b) h)) ;;;
      let '(resp, err) := client_Head (b_client b) (restPath (b_url b) h) in
      sendPermit ;;;
      match err with
      | Some e => result (mkFileInfo 0, errors_Wrap (Some e) "client.Head")
      | None =>
          match resp with
          | None => panics nilDereference
          | Some r =>
              emit EvClose ;;;
              match BodyClose r with
              | Some e => result (mkFileInfo 0, errors_Wrap (Some e) "Close")
              | None =>
                  if negb (StatusCode r =? 200) then
                    result (mkFileInfo 0,
                            Some ("Stat: unexpected HTTP response code " ++
                                  string_of_Z (StatusCode r))%string)
                  else if ContentLength r <? 0 then
                    result (mkFileInfo 0,
                            Some (errors_New "negative content length"))
                  else result (mkFileInfo (ContentLength r), None)
              end
          end
      end
  end.

(** Test returns true if a blob of the given type and name exists in the
    backend. *)
Definition Test (b : webdavBackend) (t name : string)
  : action (bool * option error) :=
  r <-- Stat b (mkHandle t name) ;;
  match r with
  | (_, Some _) => result (false, None)
  | (_, None) => result (true, None)
  end.

(** "invert offset" in [Load]: the offset the request is made for. *)
Definition invertOffset (b : webdavBackend) (h : Handle) (off : Z)
  : action (Z * option error) :=
  if off <? 0 then
    r <-- Stat b h ;;
    match r with
    | (_, Some err) => result (off, errors_Wrap (Some err) "Stat")
    | (info, None) =>
        if int64 (- off) >? fi_Size info then result (0, None)
        else result (int64 (fi_Size info + off), None)
    end
  else result (off, None).

(** Load returns the data stored in the backend for h at the given offset
    and saves it in p; the result is [n], [err] and what [p] holds. *)
Definition Load (b : webdavBackend) (h : Handle) (p : list Byte.byte) (off : Z)
  : action (Z * option error * list Byte.byte) :=
  match Handle_Valid L h with
  | Some err => result (0, Some err, p)
  | None =>
      o <-- invertOffset b h off ;;
      match o with
      | (_, Some err) => result (0, Some err, p)
      | (off, None) =>
          match http_NewRequest L "GET" (restPath (b_url b) h) None with
          | (_, Some err) =>
              result (0, errors_Wrap (Some err) "http.NewRequest", p)
          | (None, None) => panics nilDereference
          | (Some req, None) =>
              let req :=
                mkRequest (Method req) (reqURL req) (reqBody req)
                  (Header req ++
                   [("Range",
                     "bytes=" ++ string_of_Z off ++ "-" ++
                     string_of_Z (int64 (off + int64 (lenZ p))))%string]) in
              recvPermit ;;;
              emit (EvDo req) ;;;
              let '(resp, err) := client_Do (b_client b) req in
              sendPermit ;;;
              match err with
              | Some e =>
                  err' <-- deferredClose resp
                             (errors_Wrap (Some e) "client.Do") ;;
                  result (0, err', p)
              | None =>
                  match resp with
                  | None => panics nilDereference
                  | Some r =>
                      if negb (StatusCode r =? 200) &&
                         negb (StatusCode r =? 206)
                      then
                        err' <-- deferredClose resp
                          (Some ("Load: unexpected HTTP response code " ++
                                 string_of_Z (StatusCode r))%string) ;;
                        result (0, err', p)
                      else
                        let '(n, e, p') := io_ReadFull (Body r) p in
                        err' <-- deferredClose resp e ;;
                        result (n, err', p')
                  end
              end
          end
      end
  end.

(** Save stores data in the backend at the handle. *)
Definition Save (b : webdavBackend) (h : Handle) (p : list Byte.byte)
  : action (option error) :=
  match Handle_Valid L h with
  | Some err => result (Some err)
  | None =>
      let path := restPath (b_url b) h in
      match http_NewRequest L "PUT" path (Some p) with
      | (_, Some err) => result (errors_Wrap (Some err) "http.NewRequest")
      | (None, None) => panics nilDereference
      | (Some req, None) =>
          let req :=
            mkRequest (Method req) (reqURL req) (reqBody req)
                      (Header req ++ [("Translate", "f")]%string) in
          recvPermit ;;;
          emit (EvDo req) ;;;
          let '(resp, err) := client_Do (b_client b) req in
          sendPermit ;;;
          match err with
          | Some e => deferredClose resp (errors_Wrap (Some e) "client.Post")
          | None =>
              match resp with
              | None => panics nilDereference
              | Some r =>
                  if negb (StatusCode r =? 201) then
                    deferredClose resp
                      (Some ("Save: unexpected HTTP response code " ++
                             string_of_Z (StatusCode r) ++ " for " ++
                             path)%string)
                  else deferredClose resp None
              end
          end
      end
  end.

(** Remove removes the blob with the given name and type. *)
Definition Remove (b : webdavBackend) (t name : string)
  : action (option error) :=
  let h := mkHandle t name in
  match Handle_Valid L h with
  | Some err => result (Some err)
  | None =>
      match http_NewRequest L "DELETE" (restPath (b_url b) h) None with
      | (_, Some err) => result (errors_Wrap (Some err) "http.NewRequest")
      | (None, None) => panics nilDereference
      | (Some req, None) =>
          recvPermit ;;;
          emit (EvDo req) ;;;
          let '(resp, err) := client_Do (b_client b) req in
          sendPermit ;;;
          match err with
          | Some e => result (errors_Wrap (Some e) "client.Do")
          | None =>
              match resp with
              | None => panics nilDereference
              | Some r =>
                  if negb (StatusCode r =? 200)
                  then result (Some (errors_New "blob not removed"))
                  else emit EvClose ;;; result (BodyClose r)
              end
          end
      end
  end.

(** Close closes all open files. *)
Definition Close (b : webdavBackend) : option error := None.

End Backend.

(** ** A library and a server for the examples *)

(** URLs are their own text here; the constants are restic's. *)
Definition exampleLibrary : @library string :=
  mkLibrary
    (fun s => (s, None))
    (fun u => u)
    (fun _ p => p)
    (fun u => u)
    (fun elems =>
       String.concat "/" (List.filter (fun e => negb (String.eqb e "")) elems))
    (fun m u body => (Some (mkRequest m u body []), None))
    (fun h =>
       if String.eqb (h_Type h) "" then Some "type is empty"%string
       else if String.eqb (h_Type h) "config" then None
       else if String.eqb (h_Name h) "" then Some "name is empty"%string
       else None)
    "config" "data" "snapshot" "index" "lock" "key"
    "data" "snapshots" "index" "locks" "keys".

(** A server that knows a resource of 10 bytes, answers a GET with three
    bytes, accepts every PUT, and has nothing to delete at [keys/gone]. *)
Definition exampleServer : httpClient :=
  mkClient
    (fun req =>
       if String.eqb (Method req) "GET" then
         (Some (mkHTTPResponse 206 3 [Byte.x01; Byte.x02; Byte.x03] None), None)
       else if String.eqb (Method req) "PUT" then
         (Some (mkHTTPResponse 201 0 [] None), None)
       else if String.eqb (Method req) "DELETE" then
         if String.eqb (reqURL req) "http://host/repo/keys/gone"
         then (Some (mkHTTPResponse 404 0 [] None), None)
         else (Some (mkHTTPResponse 200 0 [] None), None)
       else (None, Some "unsupported method"%string))
    (fun _ => (Some (mkHTTPResponse 200 10 [] None), None)).

Definition exampleBackend : @webdavBackend string :=
  mkBackend "http://host/repo"%string exampleServer.

Definition dataHandle : Handle := mkHandle "data" "abc".

Definition allPermits : netState := mkNet connLimit [].

(** The requests the examples send. *)
Definition rangeRequest : httpRequest :=
  mkRequest "GET" "http://host/repo/data/abc" None
            [("Range", "bytes=1-3")]%string.

Definition putRequest : httpRequest :=
  mkRequest "PUT" "http://host/repo/data/abc" (Some [Byte.x07])
            [("Translate", "f")]%string.

Definition deleteRequest (name : string) : httpRequest :=
  mkRequest "DELETE" ("http://host/repo/keys/" ++ name) None [].

(** Closed comparisons of numbers are settled by evaluation. *)
Ltac by_computation := vm_compute; repeat split; discriminate.

Lemma maxInt_val : maxInt = 9223372036854775807.
Proof. reflexivity. Qed.

Lemma uint64_small z : 0 <= z < 2 ^ 64 -> uint64 z = z.
Proof. intros H. unfold uint64. apply Z.mod_small. exact H. Qed.

Lemma uint64_range z : 0 <= uint64 z < 2 ^ 64.
Proof. unfold uint64. apply Z.mod_pos_bound. lia. Qed.

Lemma uint64_le z : 0 <= z -> uint64 z <= z.
Proof. intros H. unfold uint64. apply Z.mod_le; lia. Qed.

Lemma int64_small z : - 2 ^ 63 <= z < 2 ^ 63 -> int64 z = z.
Proof. intros H. unfold int64. rewrite Z.mod_small; lia. Qed.

(** A negative [int64] converts to an [uint64] of at least [2^63]. *)
Lemma uint64_negative z : - 2 ^ 63 <= z < 0 -> uint64 z = z + 2 ^ 64.
Proof.
  intros H. unfold uint64. symmetry.
  apply (Z.mod_unique z (2 ^ 64) (-1) (z + 2 ^ 64)); lia.
Qed.

Lemma make_ok n :
  0 <= n <= maxInt ->
  make n = Ok (mkSlice (replicate (Z.to_nat n) Byte.x00) n).
Proof.
  intros [H0 H1]. unfold make.
  destruct (Z.ltb_spec n 0); [lia|].
  destruct (Z.ltb_spec maxInt n); [lia|]. reflexivity.
Qed.

Lemma reslice_ok s n :
  0 <= n <= cap s -> reslice s n = Ok (mkSlice (arr s) n).
Proof.
  intros [H0 H1]. unfold reslice.
  destruct (Z.ltb_spec n 0); [lia|].
  destruct (Z.ltb_spec (cap s) n); [lia|]. reflexivity.
Qed.

Lemma cap_nonneg s : 0 <= cap s.
Proof. unfold cap. lia. Qed.

Lemma index_lookup {A} (l : list A) i x :
  0 <= i -> l !! Z.to_nat i = Some x -> index l i = Ok x.
Proof.
  intros Hi Hl. unfold index.
  destruct (Z.ltb_spec i 0); [lia|]. rewrite Hl. reflexivity.
Qed.

(** ** The invariant of a virtual file *)

Section FileFacts.

Context {ID : Type}.
Implicit Types (f : @file ID) (w : @world ID) (r : @BlobLoader ID).
Implicit Types (chunks : list (list Byte.byte)) (data : list Byte.byte).



Lemma poolGet_ok w :
  exists b w1, poolGet w = (Ok b, w1) /\ loaded w1 = loaded w.
Proof.
  unfold poolGet. destruct (blobPool w) as [|b rest].
  - rewrite make_ok by (rewrite maxInt_val; unfold defaultBlobSize; lia).
    eauto.
  - eauto.
Qed.

Lemma pickBuffer_ok f i w size :
  index (sizes f) i = Ok size -> 0 <= size <= maxInt ->
  exists buf w1,
    pickBuffer f i w = (Ok buf, w1) /\ size <= cap buf /\
    len buf = cap buf /\ loaded w1 = loaded w.
Proof.
  intros Hidx Hsize. unfold pickBuffer.
  destruct (poolGet_ok w) as (b & w1 & -> & Hw1).
  rewrite reslice_ok by (pose proof (cap_nonneg b); lia).
  rewrite Hidx. cbn [len].
  destruct (Z.ltb_spec (uint (cap b)) size) as [Hlt|Hge].
  - rewrite make_ok by exact Hsize.
    eexists _, _. split; [reflexivity|].
    split; [unfold cap; cbn [arr]; rewrite length_replicate; lia|].
    split; [unfold cap; cbn [arr len]; rewrite length_replicate; lia|].
    destruct (cap b >? defaultBlobSize); cbn; exact Hw1.
  - eexists _, _. split; [reflexivity|].
    pose proof (uint64_le (cap b) (cap_nonneg b)). unfold uint in Hge.
    unfold cap in *. cbn [arr len].
    split; [lia|]. split; [reflexivity|]. exact Hw1.
Qed.

Lemma VirtualFile_setBlob f chunks i b :
  VirtualFile f chunks -> chunks !! Z.to_nat i = Some (bytes b) ->
  VirtualFile (setBlob f i (Some b)) chunks.
Proof.
  intros [] Hb. constructor; cbn; try assumption.
  - rewrite length_insert. assumption.
  - intros j b' Hj.
    destruct (decide (Z.to_nat i = j)) as [<-|Hne].
    + rewrite list_lookup_insert_eq in Hj
        by (rewrite vf_blobs0; eapply lookup_lt_Some; eassumption).
      congruence.
    + rewrite list_lookup_insert_ne in Hj by assumption. eauto.
Qed.

(** Under the invariant [getBlobAt] returns the chunk and keeps the
    invariant. *)
Lemma getBlobAt_ok f chunks i data w :
  VirtualFile f chunks -> 0 <= i -> chunks !! Z.to_nat i = Some data ->
  exists b f' w',
    getBlobAt f i w = (Ok b, f', w') /\ bytes b = data /\
    VirtualFile f' chunks.
Proof.
  intros Hvf Hi Hdata. pose proof Hvf as [].
  assert (Hlt : (Z.to_nat i < length chunks)%nat)
    by (eapply lookup_lt_Some; eassumption).
  destruct (lookup_lt_is_Some_2 (blobs f) (Z.to_nat i)) as [ob Hob]; [lia|].
  unfold getBlobAt. rewrite (index_lookup _ _ _ Hi Hob).
  destruct ob as [b|].
  - eexists _, _, _. split; [reflexivity|]. split; [|assumption].
    apply vf_cache0 in Hob. congruence.
  - assert (Hsz : index (sizes f) i = Ok (lenZ data)).
    { apply index_lookup; [assumption|].
      rewrite vf_sizes0, list_lookup_fmap, Hdata. reflexivity. }
    destruct (pickBuffer_ok f i w _ Hsz) as (buf & w1 & -> & Hcap & Hlen & _).
    { split; [unfold lenZ; lia | eauto]. }
    destruct (lookup_lt_is_Some_2 (Content (node f)) (Z.to_nat i)) as [id Hid];
      [lia|].
    rewrite (index_lookup _ _ _ Hi Hid).
    destruct (vf_load0 _ _ _ (arr buf) Hid Hdata) as (arr' & -> & Harr).
    { unfold cap, lenZ in Hcap. lia. }
    rewrite reslice_ok by (unfold cap, lenZ in *; lia).
    eexists _, _, _. split; [reflexivity|].
    assert (Hb : bytes (mkSlice arr' (lenZ data)) = data).
    { unfold bytes, lenZ. cbn. rewrite Nat2Z.id. exact Harr. }
    split; [exact Hb|]. apply VirtualFile_setBlob; [assumption|].
    rewrite Hb. exact Hdata.
Qed.

(** One round of the copy loop on the concatenation. *)
Lemma copy_step (l1 l2 : list Byte.byte) (r : Z) (off : nat) :
  0 <= r -> (off <= length l1)%nat ->
  take (Z.to_nat r) (drop off (l1 ++ l2)) =
  take (Z.to_nat (Z.min r (lenZ (drop off l1)))) (drop off l1) ++
  take (Z.to_nat (r - Z.min r (lenZ (drop off l1)))) l2.
Proof.
  intros Hr Hoff. rewrite drop_app_le by exact Hoff. rewrite take_app.
  unfold lenZ. f_equal.
  - destruct (Z.min_spec r (Z.of_nat (length (drop off l1)))) as [[? ->]|[? ->]].
    + reflexivity.
    + rewrite Nat2Z.id. rewrite !take_ge; [reflexivity|lia..].
  - f_equal. lia.
Qed.

Lemma readLoop_ok chunks n : forall i off c f w,
  VirtualFile f chunks -> 0 <= i ->
  n = (length chunks - Z.to_nat i)%nat ->
  0 <= off ->
  (forall data, chunks !! Z.to_nat i = Some data -> off <= lenZ data) ->
  0 <= remainingBytes c -> dstLen c = remainingBytes c ->
  exists c' f' w',
    readLoop n i off c f w = (Ok c', f', w') /\
    out c' = out c ++ take (Z.to_nat (remainingBytes c))
                          (drop (Z.to_nat off)
                                (concat (drop (Z.to_nat i) chunks))) /\
    readBytes c' - readBytes c = lenZ (out c') - lenZ (out c) /\
    VirtualFile f' chunks.
Proof.
  induction n as [|n IH]; intros i off c f w Hvf Hi Hn Hoff Hfirst Hr Hdst.
  - cbn. eexists _, _, _. split; [reflexivity|].
    rewrite (drop_ge chunks) by lia. cbn. rewrite drop_nil, take_nil, app_nil_r.
    split; [reflexivity|]. split; [lia|assumption].
  - destruct (lookup_lt_is_Some_2 chunks (Z.to_nat i)) as [data Hdata]; [lia|].
    cbn [readLoop].
    destruct (Z.gtb_spec (remainingBytes c) 0) as [Hpos|Hzero].
    + destruct (getBlobAt_ok f chunks i data w Hvf Hi Hdata)
        as (b & f1 & w1 & -> & Hb & Hvf1).
      cbv zeta. rewrite Hb. specialize (Hfirst _ Hdata).
      assert (Hcut :
        (if off >? 0
         then if Z.of_nat (length data) <? off
              then Panic "slice bounds out of range"
              else Ok (drop (Z.to_nat off) data, 0)
         else Ok (data, off)) = Ok (drop (Z.to_nat off) data, 0)).
      { destruct (Z.gtb_spec off 0).
        - destruct (Z.ltb_spec (Z.of_nat (length data)) off);
            [unfold lenZ in Hfirst; lia | reflexivity].
        - assert (off = 0) as -> by lia. reflexivity. }
      rewrite Hcut. clear Hcut.
      set (blob := drop (Z.to_nat off) data).
      set (copied := Z.min (dstLen c) (Z.of_nat (length blob))).
      assert (Hcopied : 0 <= copied <= remainingBytes c)
        by (unfold copied; lia).
      edestruct (IH (i + 1) 0
                   (mkCopy (out c ++ take (Z.to_nat copied) blob)
                           (dstLen c - copied) (readBytes c + copied)
                           (remainingBytes c - copied)) f1 w1)
        as (c' & f' & w' & Hloop & Hout & Hread & Hvf'); cbn;
        try first [eassumption | lia].
      { intros d _. unfold lenZ. lia. }
      rewrite Hloop. eexists _, _, _. split; [reflexivity|].
      cbn in Hout, Hread.
      split; [|split; [|assumption]].
      * rewrite Hout, <- app_assoc. f_equal.
        rewrite (drop_S _ _ _ Hdata). cbn [concat].
        replace (Z.to_nat (i + 1)) with (S (Z.to_nat i)) by lia.
        rewrite drop_0.
        rewrite copy_step by (unfold lenZ in Hfirst; lia).
        fold blob. unfold copied, lenZ. rewrite Hdst. reflexivity.
      * unfold lenZ in *. rewrite length_app, length_take in Hread.
        unfold copied in *. lia.
    + eexists _, _, _. split; [reflexivity|].
      assert (remainingBytes c = 0) as -> by lia.
      cbn. rewrite app_nil_r. split; [reflexivity|]. split; [lia|assumption].
Qed.

Lemma lenZ_concat_cons d (cs : list (list Byte.byte)) :
  lenZ (concat (d :: cs)) = lenZ d + lenZ (concat cs).
Proof. unfold lenZ. cbn. rewrite length_app. lia. Qed.

(** The skipping loop stops at a blob that holds the offset. *)
Lemma skipBlobs_ok (cs : list (list Byte.byte)) : forall off k,
  cs <> [] ->
  (forall i d, cs !! i = Some d -> lenZ d <= maxInt) ->
  0 <= off <= lenZ (concat cs) -> off <= maxInt ->
  exists off' j,
    skipBlobs (lenZ <$> cs) off k = Ok (off', k + Z.of_nat j) /\
    (j < length cs)%nat /\ 0 <= off' /\
    (forall d, cs !! j = Some d -> off' <= lenZ d) /\
    drop (Z.to_nat off) (concat cs) =
    drop (Z.to_nat off') (concat (drop j cs)).
Proof.
  induction cs as [|d cs IH]; intros off k Hne Hfits Hoff Hmax; [done|].
  rewrite lenZ_concat_cons in Hoff. rewrite maxInt_val in Hmax.
  assert (Hd : 0 <= lenZ d <= maxInt)
    by (split; [unfold lenZ; lia | apply (Hfits 0%nat); reflexivity]).
  rewrite maxInt_val in Hd.
  cbn [fmap list_fmap skipBlobs]. rewrite (int64_small (lenZ d)) by lia.
  destruct (Z.gtb_spec off (lenZ d)) as [Hgt|Hle].
  - rewrite int64_small by lia.
    destruct (IH (off - lenZ d) (k + 1)) as (off' & j & Hskip & Hj & H0 & Hin & Hdrop).
    + intros ->. unfold lenZ in *. cbn in Hoff. lia.
    + intros i d' Hi. apply (Hfits (S i)). exact Hi.
    + lia.
    + rewrite maxInt_val. lia.
    + exists off', (S j). rewrite Hskip.
      split; [f_equal; f_equal; lia|]. split; [cbn; lia|].
      split; [assumption|]. split; [exact Hin|].
      cbn [concat drop]. rewrite drop_app_ge by (unfold lenZ in Hgt; lia).
      rewrite <- Hdrop. f_equal. unfold lenZ. lia.
  - exists off, 0%nat. rewrite Z.add_0_r.
    split; [reflexivity|]. split; [cbn; lia|]. split; [lia|].
    split; [|reflexivity].
    intros d' [= <-]. exact Hle.
Qed.

(** *** Reading *)


Lemma Read_ok f chunks req resp w :
  VirtualFile f chunks ->
  0 <= req_Offset req <= Size (node f) -> req_Offset req <= maxInt ->
  0 <= req_Size req <= cap (resp_Data resp) ->
  exists resp' f' w',
    Read f req resp w = (Ok resp', f', w') /\
    bytes (resp_Data resp') =
      contentSlice chunks (req_Offset req) (req_Size req) /\
    len (resp_Data resp') =
      lenZ (contentSlice chunks (req_Offset req) (req_Size req)) /\
    VirtualFile f' chunks.
Proof.
  intros Hvf Hoff Hmax Hsize. pose proof Hvf as [].
  unfold Read, contentSlice.
  rewrite uint64_small by lia.
  destruct (Z.gtb_spec (req_Offset req) (Size (node f))) as [?|_]; [lia|].
  destruct (Z.eqb_spec (Size (node f)) 0) as [Hzero|Hnz].
  - rewrite reslice_ok by (pose proof (cap_nonneg (resp_Data resp)); lia).
    eexists _, _, _. split; [reflexivity|].
    assert (Hnil : concat chunks = []).
    { apply length_zero_iff_nil. unfold lenZ in vf_size0. lia. }
    rewrite Hnil, drop_nil, take_nil. cbn.
    split; [reflexivity|]. split; [reflexivity|assumption].
  - destruct (skipBlobs_ok chunks (req_Offset req) 0)
      as (off' & j & Hskip & Hj & Hoff' & Hin & Hdrop);
      [|exact vf_fits0|lia|exact Hmax|].
    { intros ->. cbn in vf_size0. unfold lenZ in vf_size0. cbn in vf_size0. lia. }
    rewrite vf_sizes0, Hskip. rewrite reslice_ok by exact Hsize. cbn [len].
    edestruct (readLoop_ok chunks
                 (Z.to_nat (Z.of_nat (length (lenZ <$> chunks)) - (0 + Z.of_nat j)))
                 (0 + Z.of_nat j) off'
                 (mkCopy [] (req_Size req) 0 (req_Size req)) f w)
      as (c' & f' & w' & Hloop & Hout & Hread & Hvf'); cbn;
      try first [eassumption | lia | reflexivity].
    { rewrite length_fmap. lia. }
    { intros d Hd. apply Hin. rewrite <- Hd. f_equal. lia. }
    rewrite Hloop. cbn in Hout, Hread.
    replace (Z.to_nat (0 + Z.of_nat j)) with j in Hout by lia.
    rewrite <- Hdrop in Hout.
    assert (Hrb : readBytes c' = lenZ (out c')) by (unfold lenZ in *; cbn in Hread; lia).
    rewrite reslice_ok.
    2:{ unfold cap. cbn [arr]. rewrite length_app. rewrite Hrb. unfold lenZ. lia. }
    eexists _, _, _. split; [reflexivity|]. cbn [resp_Data arr len].
    unfold bytes. cbn [arr len]. rewrite Hrb. unfold lenZ at 1.
    rewrite Nat2Z.id, take_app_length, Hout.
    split; [reflexivity|]. split; [reflexivity|assumption].
Qed.

Lemma contentSlice_length chunks offset size :
  0 <= offset <= lenZ (concat chunks) -> 0 <= size ->
  lenZ (contentSlice chunks offset size) =
  Z.min size (lenZ (concat chunks) - offset).
Proof.
  intros Hoff Hsize. unfold contentSlice, lenZ in *.
  rewrite length_take, length_drop. lia.
Qed.

(** *** Creation *)

Lemma uint64_add_idemp a b c :
  uint64 (uint64 (a + uint64 b) + c) = uint64 (a + (b + c)).
Proof.
  unfold uint64. rewrite Zplus_mod_idemp_l.
  replace (a + b mod 2 ^ 64 + c) with (b mod 2 ^ 64 + (a + c)) by ring.
  rewrite Zplus_mod_idemp_l. f_equal. ring.
Qed.

Lemma lookupSizes_ok r (content : list ID) (ss : list Z) :
  Forall2 (fun id s => LookupBlobSize r id DataBlob = (s, None)) content ss ->
  forall acc, 0 <= acc < 2 ^ 64 ->
  lookupSizes r content acc = Ok (ss, uint64 (acc + sumZ ss)).
Proof.
  induction 1 as [|id s content ss Hid _ IH]; intros acc Hacc; cbn.
  - rewrite Z.add_0_r, uint64_small by exact Hacc. reflexivity.
  - rewrite Hid, IH by apply uint64_range.
    rewrite uint64_add_idemp. reflexivity.
Qed.

Lemma lookupSizes_err r (pre : list ID) id post e :
  (forall id', id' ∈ pre -> (LookupBlobSize r id' DataBlob).2 = None) ->
  (LookupBlobSize r id DataBlob).2 = Some e ->
  forall acc, lookupSizes r (pre ++ id :: post) acc = Err e.
Proof.
  intros Hpre Hid. induction pre as [|id' pre IH]; intros acc; cbn.
  - destruct (LookupBlobSize r id DataBlob) as [s oe]. cbn in Hid.
    rewrite Hid. reflexivity.
  - pose proof (Hpre id' ltac:(left)) as Hid'.
    destruct (LookupBlobSize r id' DataBlob) as [s oe]. cbn in Hid'.
    rewrite Hid', IH; [reflexivity|].
    intros id'' Hin. apply Hpre. right. exact Hin.
Qed.

Lemma sumZ_lenZ chunks : sumZ (lenZ <$> chunks) = lenZ (concat chunks).
Proof.
  induction chunks as [|d cs IH]; [reflexivity|].
  rewrite lenZ_concat_cons, <- IH. reflexivity.
Qed.

Lemma sumZ_nonneg (ss : list Z) : Forall (fun s => 0 <= s) ss -> 0 <= sumZ ss.
Proof. unfold sumZ. induction 1; cbn; lia. Qed.

(** [newFile] on a node whose sizes all look up. *)
Lemma newFile_ok r n root (ss : list Z) :
  Forall2 (fun id s => LookupBlobSize r id DataBlob = (s, None)) (Content n) ss ->
  exists f,
    newFile r n root = Ok f /\ repo f = r /\ sizes f = ss /\
    Content (node f) = Content n /\ Size (node f) = uint64 (sumZ ss) /\
    blobs f = replicate (length (Content n)) None.
Proof.
  intros Hss. unfold newFile.
  rewrite (lookupSizes_ok r _ ss Hss 0) by lia. rewrite Z.add_0_l.
  eexists. split; [reflexivity|]. cbn.
  repeat split.
  - destruct (Z.eqb_spec (uint64 (sumZ ss)) (Size n)); reflexivity.
  - destruct (Z.eqb_spec (uint64 (sumZ ss)) (Size n)); cbn; congruence.
Qed.

(** A file made by [newFile] from a repository that holds [chunks]
    satisfies the invariant, as long as the content's length fits the
    [uint64] it is summed in. *)
Lemma newFile_VirtualFile r n root chunks :
  presents r (Content n) chunks -> lenZ (concat chunks) < 2 ^ 64 ->
  exists f, newFile r n root = Ok f /\ VirtualFile f chunks.
Proof.
  intros Hp Hfit.
  destruct (newFile_ok r n root (lenZ <$> chunks))
    as (f & Hnew & Hrepo & Hsizes & Hcontent & Hsize & Hblobs).
  { apply Forall2_fmap_r. eapply Forall2_impl; [exact Hp|].
    cbn. intros id d (H & _). exact H. }
  exists f. split; [exact Hnew|].
  rewrite sumZ_lenZ, uint64_small in Hsize by (unfold lenZ in *; lia).
  constructor.
  - rewrite Hcontent. eapply Forall2_length; eassumption.
  - rewrite Hblobs, length_replicate. eapply Forall2_length; eassumption.
  - exact Hsizes.
  - intros i d Hd.
    destruct (Forall2_lookup_r _ _ _ _ _ Hp Hd) as (id & _ & _ & H & _).
    exact H.
  - exact Hsize.
  - rewrite Hsize. exact Hfit.
  - intros i b. rewrite Hblobs. intros [[=] _]%lookup_replicate.
  - intros i id d buf Hid Hd. rewrite Hcontent in Hid. rewrite Hrepo.
    pose proof (Forall2_lookup_lr _ _ _ _ _ _ Hp Hid Hd) as (_ & _ & H).
    apply H.
Qed.

(** *** The cache *)

Lemma index_inv {A} (l : list A) i x :
  index l i = Ok x -> 0 <= i /\ l !! Z.to_nat i = Some x.
Proof.
  unfold index. destruct (Z.ltb_spec i 0); [discriminate|].
  destruct (l !! Z.to_nat i); [|discriminate]. intros [= ->]. split; [lia|reflexivity].
Qed.

(** A cached blob is returned as it is: no buffer is taken, nothing is
    loaded, nothing changes. *)
Lemma getBlobAt_cached f i w b :
  0 <= i -> blobs f !! Z.to_nat i = Some (Some b) ->
  getBlobAt f i w = (Ok b, f, w).
Proof.
  intros Hi Hb. unfold getBlobAt. rewrite (index_lookup _ _ _ Hi Hb). reflexivity.
Qed.

(** [getBlobAt] never drops or replaces a cached blob. *)
Lemma getBlobAt_keeps f j w i b :
  blobs f !! i = Some (Some b) ->
  blobs (getBlobAt f j w).1.2 !! i = Some (Some b).
Proof.
  intros Hb. unfold getBlobAt.
  destruct (index (blobs f) j) as [[b'|]| |] eqn:Hidx; cbn; try assumption.
  destruct (pickBuffer f j w) as [[buf| |] w1]; cbn; try assumption.
  destruct (index (Content (node f)) j); cbn; try assumption.
  destruct (LoadBlob (repo f) DataBlob a (arr buf)) as [[n [e|]] arr'];
    cbn; try assumption.
  destruct (reslice buf n); cbn; try assumption.
  apply index_inv in Hidx as [_ Hj].
  rewrite list_lookup_insert_ne; [assumption|]. congruence.
Qed.

(** Whatever [getBlobAt] preserves, the other calls on a handle preserve
    too: they change the file through [getBlobAt] only. *)
Section Preservation.

Variable P : @file ID -> Prop.
Hypothesis P_getBlobAt : forall f j w, P f -> P (getBlobAt f j w).1.2.

Lemma readLoop_preserves n : forall j off c f w,
  P f -> P (readLoop n j off c f w).1.2.
Proof.
  induction n as [|n IH]; intros j off c f w Hf; cbn; [assumption|].
  destruct (remainingBytes c >? 0); cbn; [|assumption].
  pose proof (P_getBlobAt f j w Hf) as Hkeep.
  destruct (getBlobAt f j w) as [[[b1| |] f1] w1]; cbn in Hkeep |- *;
    try assumption.
  destruct (off >? 0); [destruct (_ <? off)|]; cbn; try assumption;
    apply IH; assumption.
Qed.

Lemma Read_preserves f req resp w : P f -> P (Read f req resp w).1.2.
Proof.
  intros Hf. unfold Read.
  destruct (_ >? Size (node f)); cbn; [assumption|].
  destruct (Size (node f) =? 0).
  { destruct (reslice (resp_Data resp) 0); assumption. }
  destruct (skipBlobs _ _ _) as [[off k]| |]; cbn; try assumption.
  destruct (reslice (resp_Data resp) (req_Size req)); cbn; try assumption.
  match goal with
  | |- context [readLoop ?n ?j ?o ?c f w] =>
      pose proof (readLoop_preserves n j o c f w Hf) as Hkeep;
      destruct (readLoop n j o c f w) as [[[c'| |] f1] w1]
  end; cbn in Hkeep |- *; try assumption.
  destruct (reslice _ (readBytes c')); assumption.
Qed.

Lemma runOps_preserves os : forall f w, P f -> P (runOps os (f, w)).1.
Proof.
  unfold runOps.
  induction os as [|o os IH]; intros f w Hf; cbn; [assumption|].
  destruct o as [a|j|req resp|w']; cbn.
  - apply IH. assumption.
  - pose proof (P_getBlobAt f j w Hf) as Hkeep.
    destruct (getBlobAt f j w) as [[o' f1] w1]. apply IH. assumption.
  - pose proof (Read_preserves f req resp w Hf) as Hkeep.
    destruct (Read f req resp w) as [[o' f1] w1]. apply IH. assumption.
  - apply IH. assumption.
Qed.

End Preservation.

Lemma runOps_keeps os f w i b :
  blobs f !! i = Some (Some b) ->
  blobs (runOps os (f, w)).1 !! i = Some (Some b).
Proof.
  apply (runOps_preserves (fun f => blobs f !! i = Some (Some b))).
  intros f' j w'. apply getBlobAt_keeps.
Qed.

(** [getBlobAt] keeps the invariant at every index, also one out of
    range. *)
Lemma getBlobAt_VirtualFile chunks f j w :
  VirtualFile f chunks -> VirtualFile (getBlobAt f j w).1.2 chunks.
Proof.
  intros Hvf.
  destruct (Z.lt_ge_cases j 0) as [Hneg|Hpos].
  { unfold getBlobAt, index. destruct (Z.ltb_spec j 0); [assumption|lia]. }
  destruct (chunks !! Z.to_nat j) as [data|] eqn:Hdata.
  - destruct (getBlobAt_ok f chunks j data w Hvf Hpos Hdata)
      as (b & f' & w' & -> & _ & Hvf'). exact Hvf'.
  - unfold getBlobAt, index. destruct (Z.ltb_spec j 0); [assumption|].
    rewrite (lookup_ge_None_2 (blobs f)); [assumption|].
    rewrite (vf_blobs _ _ Hvf). apply lookup_ge_None_1. exact Hdata.
Qed.

(** Every state a handle goes through after its creation satisfies the
    invariant. *)
Lemma runOps_VirtualFile chunks os f w :
  VirtualFile f chunks -> VirtualFile (runOps os (f, w)).1 chunks.
Proof.
  apply (runOps_preserves (fun f => VirtualFile f chunks)).
  intros f' j w'. apply getBlobAt_VirtualFile.
Qed.

(** *** Release *)

Lemma releaseBlobs_spec (bs : list (option slice)) : forall w,
  releaseBlobs bs w =
  (replicate (length bs) None,
   mkWorld (reverse (omap id bs) ++ blobPool w) (loaded w)).
Proof.
  induction bs as [|[b|] bs IH]; intros w; cbn [releaseBlobs].
  - destruct w; reflexivity.
  - rewrite IH. cbn [poolPut blobPool loaded length replicate].
    change (omap id (Some b :: bs)) with (b :: omap id bs).
    rewrite reverse_cons, <- app_assoc. reflexivity.
  - rewrite IH. reflexivity.
Qed.

Lemma omap_replicate_None {A} n : omap id (replicate n (@None A)) = [].
Proof. induction n; [reflexivity | assumption]. Qed.

Lemma Release_VirtualFile chunks f w :
  VirtualFile f chunks -> VirtualFile (Release f w).1.2 chunks.
Proof.
  intros []. unfold Release. rewrite releaseBlobs_spec. cbn.
  constructor; cbn; try assumption.
  - rewrite length_replicate. assumption.
  - intros i b [[=] _]%lookup_replicate.
Qed.

Lemma readLoop_nothing_left k i off c f w :
  remainingBytes c <= 0 -> readLoop k i off c f w = (Ok c, f, w).
Proof.
  intros Hr. destruct k; cbn; [reflexivity|].
  destruct (Z.gtb_spec (remainingBytes c) 0); [lia|reflexivity].
Qed.

(** *** Reading at the end of the file *)










(** [pickBuffer] makes no load. *)
Lemma pickBuffer_loaded f i w o w1 :
  pickBuffer f i w = (o, w1) -> loaded w1 = loaded w.
Proof.
  unfold pickBuffer, poolGet. intros H.
  repeat case_match; simplify_eq; reflexivity.
Qed.


End FileFacts.

(** ** The properties of the virtual file *)

Section FileProperties.

Context {ID : Type}.
Implicit Types (f : @file ID) (w : @world ID) (r : @BlobLoader ID).
Implicit Types (n : @Node ID) (chunks : list (list Byte.byte)).

(** C1: for a virtual file that presents [chunks] (each load gives exactly
    the chunk of the looked-up size, the node's size is the content's
    length), an offset between 0 and the node's size and a length the
    response buffer has room for, [Read] succeeds and returns exactly
    [min length (size - offset)] bytes: the content from [offset] on. *)
Theorem Read_returns_content_slice f chunks req resp w :
  VirtualFile f chunks ->
  0 <= req_Offset req <= Size (node f) -> req_Offset req <= maxInt ->
  0 <= req_Size req <= cap (resp_Data resp) ->
  exists resp' f' w',
    Read f req resp w = (Ok resp', f', w') /\
    lenZ (bytes (resp_Data resp')) =
      Z.min (req_Size req) (Size (node f) - req_Offset req) /\
    bytes (resp_Data resp') =
      take (Z.to_nat (Z.min (req_Size req) (Size (node f) - req_Offset req)))
           (drop (Z.to_nat (req_Offset req)) (concat chunks)) /\
    VirtualFile f' chunks.
Proof.
  intros Hvf Hoff Hmax Hsize.
  destruct (Read_ok f chunks req resp w Hvf Hoff Hmax Hsize)
    as (resp' & f' & w' & Hread & Hbytes & _ & Hvf').
  exists resp', f', w'. split; [exact Hread|].
  pose proof (vf_size _ _ Hvf) as Hsz.
  pose proof (contentSlice_length chunks (req_Offset req) (req_Size req)) as Hlen.
  rewrite <- Hsz in Hlen. rewrite Hbytes.
  split; [apply Hlen; lia|]. split; [|exact Hvf'].
  unfold contentSlice.
  destruct (Z.min_spec (req_Size req) (Size (node f) - req_Offset req))
    as [[_ ->]|[Hge ->]]; [reflexivity|].
  rewrite !take_ge; [reflexivity| |]; rewrite length_drop;
    unfold lenZ in Hsz; lia.
Qed.

(** C2, amended: when every size lookup succeeds and the sizes sum to less
    than [2^64], the size [Attr] reports for the file [newFile] makes is
    that sum, also when the node declared another size. *)
Theorem Attr_size_is_chunk_sum r n root (ss : list Z) a :
  Forall2 (fun id s => LookupBlobSize r id DataBlob = (s, None)) (Content n) ss ->
  Forall (fun s => 0 <= s) ss -> sumZ ss < 2 ^ 64 ->
  Size n <> sumZ ss ->
  exists f,
    newFile r n root = Ok f /\
    a_Size (Attr f a).1 = sumZ ss /\ a_Size (Attr f a).1 <> Size n.
Proof.
  intros Hss Hpos Hfit Hne.
  destruct (newFile_ok r n root ss Hss) as (f & Hnew & _ & _ & _ & Hsize & _).
  exists f. split; [exact Hnew|]. cbn. rewrite Hsize.
  rewrite uint64_small by (pose proof (sumZ_nonneg ss Hpos); lia).
  split; [reflexivity|]. congruence.
Qed.


(** C4, amended: on a file whose node size is 0, [Read] at offset 0
    returns no bytes and no error whatever the length; at every other
    offset it fails with the offset error. *)
Theorem Read_empty_file f req resp w :
  Size (node f) = 0 -> - 2 ^ 63 <= req_Offset req < 2 ^ 63 ->
  if req_Offset req =? 0
  then exists resp',
         Read f req resp w = (Ok resp', f, w) /\
         bytes (resp_Data resp') = [] /\ len (resp_Data resp') = 0
  else Read f req resp w = (Err errOffset, f, w).
Proof.
  intros Hzero Hoff. unfold Read. rewrite Hzero.
  destruct (Z.eqb_spec (req_Offset req) 0) as [->|Hne].
  - cbn. rewrite reslice_ok by (pose proof (cap_nonneg (resp_Data resp)); lia).
    eexists. split; [reflexivity|]. split; reflexivity.
  - destruct (Z.lt_ge_cases (req_Offset req) 0).
    + rewrite uint64_negative by lia.
      destruct (Z.gtb_spec (req_Offset req + 2 ^ 64) 0); [reflexivity|lia].
    + rewrite uint64_small by lia.
      destruct (Z.gtb_spec (req_Offset req) 0); [reflexivity|lia].
Qed.

(** C5: if the size lookup fails for an identifier of the node's content,
    [newFile] returns the error of the first lookup that fails, as it is,
    and no file. *)
Theorem newFile_lookup_error r n root :
  (exists id, id ∈ Content n /\ (LookupBlobSize r id DataBlob).2 <> None) ->
  exists pre id post e,
    Content n = pre ++ id :: post /\
    (forall id', id' ∈ pre -> (LookupBlobSize r id' DataBlob).2 = None) /\
    (LookupBlobSize r id DataBlob).2 = Some e /\
    newFile r n root = Err e.
Proof.
  intros Hfail.
  assert (Hfirst : exists pre id post e,
    Content n = pre ++ id :: post /\
    (forall id', id' ∈ pre -> (LookupBlobSize r id' DataBlob).2 = None) /\
    (LookupBlobSize r id DataBlob).2 = Some e).
  { induction (Content n) as [|id0 l IH].
    - destruct Hfail as (id & Hin & _). inversion Hin.
    - destruct ((LookupBlobSize r id0 DataBlob).2) as [e|] eqn:H0.
      + exists [], id0, l, e. split; [reflexivity|]. split; [|exact H0].
        intros id' Hin. inversion Hin.
      + destruct IH as (pre & id & post & e & -> & Hpre & He).
        { destruct Hfail as (id & Hin & Hne).
          apply elem_of_cons in Hin as [->|Hin]; [congruence|]. eauto. }
        exists (id0 :: pre), id, post, e. split; [reflexivity|].
        split; [|exact He].
        intros id' [->|Hin]%elem_of_cons; [exact H0 | apply Hpre, Hin]. }
  destruct Hfirst as (pre & id & post & e & Hc & Hpre & He).
  exists pre, id, post, e. repeat split; try assumption.
  unfold newFile. rewrite Hc, (lookupSizes_err r pre id post e Hpre He).
  reflexivity.
Qed.

(** C6: when slot [i] of the cache is empty and [buf] is the buffer
    [getBlobAt] picks, a load that fails makes [getBlobAt] fail with the
    load's error and leaves the file, so slot [i], as it was; a load of [n]
    bytes puts the buffer cut to [n] bytes into slot [i], and every later
    [getBlobAt f i], after whatever other calls, returns that slice and
    changes nothing, so nothing is loaded again. *)
Theorem getBlobAt_load_and_cache f i w buf w1 id (n : Z) oerr arr' :
  index (blobs f) i = Ok None ->
  pickBuffer f i w = (Ok buf, w1) ->
  index (Content (node f)) i = Ok id ->
  LoadBlob (repo f) DataBlob id (arr buf) = (n, oerr, arr') ->
  match oerr with
  | Some err =>
      getBlobAt f i w = (Err err, f, logLoad id w1) /\
      blobs f !! Z.to_nat i = Some None
  | None =>
      0 <= n <= cap buf ->
      let b := mkSlice arr' n in
      getBlobAt f i w = (Ok b, setBlob f i (Some b), logLoad id w1) /\
      blobs (setBlob f i (Some b)) !! Z.to_nat i = Some (Some b) /\
      forall os w2,
        let s := runOps os (setBlob f i (Some b), w2) in
        getBlobAt s.1 i s.2 = (Ok b, s.1, s.2)
  end.
Proof.
  intros Hslot Hbuf Hid Hload.
  destruct (index_inv _ _ _ Hslot) as [Hi Hnone].
  destruct oerr as [err|].
  - split; [|exact Hnone].
    unfold getBlobAt. rewrite Hslot, Hbuf, Hid, Hload. reflexivity.
  - intros Hn b.
    assert (Hb : blobs (setBlob f i (Some b)) !! Z.to_nat i = Some (Some b)).
    { cbn. apply list_lookup_insert_eq. eapply lookup_lt_Some. exact Hnone. }
    split; [|split; [exact Hb|]].
    + unfold getBlobAt. rewrite Hslot, Hbuf, Hid, Hload.
      rewrite reslice_ok by exact Hn. reflexivity.
    + intros os w2 s. apply getBlobAt_cached; [exact Hi|].
      apply runOps_keeps. exact Hb.
Qed.

(** C7: [Release] returns no error, leaves every slot of the cache empty,
    has put every cached buffer into the pool, and releasing again changes
    nothing. *)
Theorem Release_clears_cache f w :
  (Release f w).1.1 = None /\
  blobs (Release f w).1.2 = replicate (length (blobs f)) None /\
  blobPool (Release f w).2 = reverse (omap id (blobs f)) ++ blobPool w /\
  (forall b, Some b ∈ blobs f -> b ∈ blobPool (Release f w).2) /\
  Release (Release f w).1.2 (Release f w).2 = Release f w.
Proof.
  unfold Release. rewrite releaseBlobs_spec. cbn.
  split; [reflexivity|]. split; [reflexivity|]. split; [reflexivity|].
  split.
  - intros b Hb. apply elem_of_app. left. apply elem_of_reverse.
    apply list_elem_of_omap. exists (Some b). split; [exact Hb|reflexivity].
  - rewrite releaseBlobs_spec. cbn.
    rewrite length_replicate, omap_replicate_None. reflexivity.
Qed.

(** C8: [Attr] reports the block size 512 and [size / 512 + 1] blocks:
    1 block for size 0, 2 for 512, 3 for 1024. *)
Theorem Attr_blocks f a :
  0 <= Size (node f) < 2 ^ 64 ->
  (Attr f a).2 = None /\
  a_BlockSize (Attr f a).1 = 512 /\
  a_Blocks (Attr f a).1 = Size (node f) / 512 + 1 /\
  (Size (node f) = 0 -> a_Blocks (Attr f a).1 = 1) /\
  (Size (node f) = 512 -> a_Blocks (Attr f a).1 = 2) /\
  (Size (node f) = 1024 -> a_Blocks (Attr f a).1 = 3).
Proof.
  intros Hrange. cbn. unfold blockSize.
  assert (Hdiv : 0 <= Size (node f) / 512 < 2 ^ 55).
  { split; [apply Z.div_pos; lia|]. apply Z.div_lt_upper_bound; lia. }
  rewrite uint64_small by lia.
  repeat split; intros ->; reflexivity.
Qed.

(** C10: on a file whose node size is below [2^63], [Read] at a negative
    offset fails with the offset error; the file, the pool and the log of
    loads stay as they were, so no blob is loaded. *)
Theorem Read_negative_offset f req resp w :
  0 <= Size (node f) < 2 ^ 63 -> - 2 ^ 63 <= req_Offset req < 0 ->
  Read f req resp w = (Err errOffset, f, w) /\
  loaded (Read f req resp w).2 = loaded w /\
  blobs (Read f req resp w).1.2 = blobs f.
Proof.
  intros Hsize Hoff.
  assert (Hread : Read f req resp w = (Err errOffset, f, w)).
  { unfold Read. rewrite uint64_negative by exact Hoff.
    destruct (Z.gtb_spec (req_Offset req + 2 ^ 64) (Size (node f)));
      [reflexivity|lia]. }
  rewrite Hread. repeat split.
Qed.

End FileProperties.

(** ** Examples: the file of the specification's scenarios *)

Lemma newFile_example :
  newFile (memRepo twoBlobs) (exampleNode 200 [1; 2]%nat) false = Ok exampleFile.
Proof. reflexivity. Qed.

Lemma newFile_empty :
  newFile (memRepo twoBlobs) (exampleNode 0 []) false = Ok emptyFile.
Proof. reflexivity. Qed.

Lemma memRepo_presents store (content : list nat) chunks :
  Forall2 (fun id d => store id = Some d /\ lenZ d <= maxInt) content chunks ->
  presents (memRepo store) content chunks.
Proof.
  intros H. eapply Forall2_impl; [exact H|]. cbn [memRepo LookupBlobSize LoadBlob].
  intros id d [Hid Hfit]. rewrite Hid.
  split; [reflexivity|]. split; [exact Hfit|].
  intros buf Hbuf. destruct (Nat.ltb_spec (length buf) (length d)); [lia|].
  eexists. split; [reflexivity|]. apply take_app_length.
Qed.

Lemma exampleFile_VirtualFile : VirtualFile exampleFile twoChunks.
Proof.
  destruct (newFile_VirtualFile (memRepo twoBlobs)
              (exampleNode 200 [1; 2]%nat) false twoChunks) as (f & Hf & Hvf).
  - apply memRepo_presents.
    repeat constructor; rewrite maxInt_val; vm_compute; discriminate.
  - vm_compute. reflexivity.
  - rewrite newFile_example in Hf. injection Hf as <-. exact Hvf.
Qed.

(** Reading 30 bytes at offset 90 of the example file gives the last 10
    bytes of the first blob and the first 20 of the second. *)
Lemma Read_returns_content_slice_witness :
  exists resp' f' w',
    Read exampleFile (mkReq 90 30) (freshResponse 30) emptyWorld =
      (Ok resp', f', w') /\
    lenZ (bytes (resp_Data resp')) = Z.min 30 (150 - 90) /\
    bytes (resp_Data resp') =
      take (Z.to_nat (Z.min 30 (150 - 90)))
           (drop (Z.to_nat 90) (concat twoChunks)) /\
    VirtualFile f' twoChunks.
Proof.
  apply (Read_returns_content_slice exampleFile twoChunks (mkReq 90 30)
           (freshResponse 30) emptyWorld).
  - exact exampleFile_VirtualFile.
  - by_computation.
  - by_computation.
  - by_computation.
Defined.

Example example_read_90_30 :
  (Read exampleFile (mkReq 90 30) (freshResponse 30) emptyWorld).1.1 =
  Ok (mkResp (mkSlice (replicate 10 Byte.x01 ++ replicate 20 Byte.x02) 30)).
Proof. vm_compute. reflexivity. Qed.

(** The node declares 200 bytes, the blobs have 150. *)
Lemma Attr_size_is_chunk_sum_witness :
  exists f,
    newFile (memRepo twoBlobs) (exampleNode 200 [1; 2]%nat) false = Ok f /\
    a_Size (Attr f zeroAttr).1 = sumZ [100; 50] /\
    a_Size (Attr f zeroAttr).1 <> Size (exampleNode 200 [1; 2]%nat).
Proof.
  apply (Attr_size_is_chunk_sum (memRepo twoBlobs)
           (exampleNode 200 [1; 2]%nat) false [100; 50] zeroAttr).
  - repeat constructor.
  - repeat constructor; lia.
  - vm_compute. reflexivity.
  - vm_compute. discriminate.
Defined.

(** Counterexample to C2 as it is stated: two blobs of [2^63] bytes sum to [2^64], the
    [uint64] sum wraps to 0, and [Attr] reports the 0 the node declared. *)
Lemma Attr_size_wraps :
  ~ (forall (r : @BlobLoader nat) n root (ss : list Z) a,
       Forall2 (fun id s => LookupBlobSize r id DataBlob = (s, None))
               (Content n) ss ->
       Forall (fun s => 0 <= s < 2 ^ 64) ss ->
       0 <= Size n < 2 ^ 64 ->
       Size n <> sumZ ss ->
       exists f,
         newFile r n root = Ok f /\ a_Size (Attr f a).1 = sumZ ss).
Proof.
  intros H.
  destruct (H hugeRepo (exampleNode 0 [1; 2]%nat) false [2 ^ 63; 2 ^ 63] zeroAttr)
    as (f & Hnew & Hsize).
  - repeat constructor.
  - repeat constructor; lia.
  - by_computation.
  - vm_compute. discriminate.
  - vm_compute in Hnew. injection Hnew as <-.
    vm_compute in Hsize. discriminate Hsize.
Qed.

Example example_wrapped_sum :
  exists f,
    newFile hugeRepo (exampleNode 0 [1; 2]%nat) false = Ok f /\
    sizes f = [2 ^ 63; 2 ^ 63] /\ a_Size (Attr f zeroAttr).1 = 0.
Proof. eexists. split; [reflexivity|]. split; reflexivity. Qed.




Example example_read_at_end_loads_last_blob :
  loaded (Read lastBlobFile (mkReq 150 30) (freshResponse 30) emptyWorld).2 =
  [2%nat].
Proof. vm_compute. reflexivity. Qed.

Example example_read_beyond_size :
  Read exampleFile (mkReq 151 30) (freshResponse 30) emptyWorld =
  (Err errOffset, exampleFile, emptyWorld).
Proof. reflexivity. Qed.


Example example_read_at_size_load_error :
  (Read (mkFile unreadableRepo (exampleNode 100 [1%nat]) false [100] [None])
        (mkReq 100 10) (freshResponse 10) emptyWorld).1.1 =
  Err "load failed"%string.
Proof. vm_compute. reflexivity. Qed.

(** Reading the empty file at offset 0. *)
Lemma Read_empty_file_witness :
  exists resp',
    Read emptyFile (mkReq 0 10) (freshResponse 10) emptyWorld =
      (Ok resp', emptyFile, emptyWorld) /\
    bytes (resp_Data resp') = [] /\ len (resp_Data resp') = 0.
Proof.
  apply (Read_empty_file emptyFile (mkReq 0 10) (freshResponse 10) emptyWorld).
  - reflexivity.
  - by_computation.
Defined.

(** Counterexample to C4 as it is stated: on the empty file [Read] at offset 1 fails with the
    offset error. *)
Lemma Read_at_offset_1_of_empty_fails :
  ~ (forall (r : @BlobLoader nat) n root f req resp w,
       newFile r n root = Ok f -> Size (node f) = 0 ->
       exists resp' f' w',
         Read f req resp w = (Ok resp', f', w') /\
         bytes (resp_Data resp') = []).
Proof.
  intros H.
  destruct (H (memRepo twoBlobs) (exampleNode 0 []) false _
              (mkReq 1 10) (freshResponse 10) emptyWorld newFile_empty eq_refl)
    as (resp' & f' & w' & Hread & _).
  vm_compute in Hread. discriminate Hread.
Qed.

Example example_empty_offset_1 :
  Read emptyFile (mkReq 1 10) (freshResponse 10) emptyWorld =
  (Err errOffset, emptyFile, emptyWorld).
Proof. reflexivity. Qed.

(** The second of three lookups fails: blob 3 is not in the repository. *)
Lemma newFile_lookup_error_witness :
  exists pre id post e,
    Content (exampleNode 150 [1; 3; 2]%nat) = pre ++ id :: post /\
    (forall id', id' ∈ pre ->
       (LookupBlobSize (memRepo twoBlobs) id' DataBlob).2 = None) /\
    (LookupBlobSize (memRepo twoBlobs) id DataBlob).2 = Some e /\
    newFile (memRepo twoBlobs) (exampleNode 150 [1; 3; 2]%nat) false = Err e.
Proof.
  apply (newFile_lookup_error (memRepo twoBlobs)
           (exampleNode 150 [1; 3; 2]%nat) false).
  exists 3%nat. split.
  - cbn. right. left.
  - cbn. discriminate.
Defined.

Example example_missing_blob :
  newFile (memRepo twoBlobs) (exampleNode 150 [1; 3; 2]%nat) false =
  Err "blob not found"%string.
Proof. reflexivity. Qed.

(** The first read of blob 1 of the example file: the pool is empty, the
    buffer is a new one of the default size, 100 bytes are loaded. *)
Lemma cap_defaultBuffer : cap defaultBuffer = defaultBlobSize.
Proof.
  unfold cap, defaultBuffer. cbn [arr]. rewrite length_replicate.
  unfold defaultBlobSize. lia.
Qed.

Lemma pickBuffer_fresh (f : @file nat) i w size :
  blobPool w = [] -> index (sizes f) i = Ok size -> size <= defaultBlobSize ->
  pickBuffer f i w = (Ok defaultBuffer, w).
Proof.
  intros Hpool Hidx Hsize. unfold pickBuffer, poolGet. rewrite Hpool.
  rewrite make_ok by by_computation. fold defaultBuffer.
  pose proof cap_defaultBuffer as Hcap.
  rewrite reslice_ok by (rewrite Hcap; by_computation).
  rewrite Hidx, Hcap. cbn [len]. unfold uint.
  rewrite uint64_small by by_computation.
  destruct (Z.ltb_spec defaultBlobSize size); [lia|reflexivity].
Qed.

Lemma LoadBlob_example :
  LoadBlob (repo exampleFile) DataBlob 1%nat (arr defaultBuffer) =
  (100, None, replicate 100 Byte.x01 ++ drop 100 (arr defaultBuffer)).
Proof.
  unfold exampleFile, memRepo. cbn [repo LoadBlob twoBlobs].
  rewrite length_replicate. unfold defaultBuffer. cbn [arr].
  rewrite length_replicate.
  destruct (Nat.ltb_spec (Z.to_nat defaultBlobSize) 100);
    [unfold defaultBlobSize in *; lia | reflexivity].
Qed.

Lemma getBlobAt_load_and_cache_witness :
  let b := mkSlice (replicate 100 Byte.x01 ++ drop 100 (arr defaultBuffer)) 100 in
  getBlobAt exampleFile 0 emptyWorld =
    (Ok b, setBlob exampleFile 0 (Some b), logLoad 1%nat emptyWorld) /\
  blobs (setBlob exampleFile 0 (Some b)) !! Z.to_nat 0 = Some (Some b) /\
  forall os w2,
    let s := runOps os (setBlob exampleFile 0 (Some b), w2) in
    getBlobAt s.1 0 s.2 = (Ok b, s.1, s.2).
Proof.
  refine (getBlobAt_load_and_cache exampleFile 0 emptyWorld defaultBuffer
            emptyWorld 1%nat 100 None
            (replicate 100 Byte.x01 ++ drop 100 (arr defaultBuffer))
            _ _ _ _ _).
  - reflexivity.
  - apply (pickBuffer_fresh exampleFile 0 emptyWorld 100);
      [reflexivity | reflexivity | by_computation].
  - reflexivity.
  - exact LoadBlob_example.
  - rewrite cap_defaultBuffer. by_computation.
Defined.

Example example_cached_after_first_call :
  let s1 := getBlobAt exampleFile 0 emptyWorld in
  let s2 := getBlobAt s1.1.2 0 s1.2 in
  fmap (M := list) (fmap (M := option) bytes) (blobs s1.1.2) =
    [Some (replicate 100 Byte.x01); None] /\
  loaded s1.2 = [1%nat] /\
  fmap (M := list) (fmap (M := option) bytes) (blobs s2.1.2) =
    [Some (replicate 100 Byte.x01); None] /\
  loaded s2.2 = [1%nat].
Proof. vm_compute. repeat split. Qed.

Example example_load_fails :
  getBlobAt (mkFile unreadableRepo (exampleNode 100 [1%nat]) false [100] [None])
            0 emptyWorld =
  (Err "load failed"%string,
   mkFile unreadableRepo (exampleNode 100 [1%nat]) false [100] [None],
   logLoad 1%nat emptyWorld).
Proof. vm_compute. reflexivity. Qed.

(** Releasing after a read hands the two buffers to the pool. *)
Example example_release_after_read :
  let s1 := Read exampleFile (mkReq 90 30) (freshResponse 30) emptyWorld in
  let s2 := Release s1.1.2 s1.2 in
  s2.1.1 = None /\ blobs s2.1.2 = [None; None] /\
  (bytes <$> blobPool s2.2) = [replicate 50 Byte.x02; replicate 100 Byte.x01] /\
  (cap <$> blobPool s2.2) = [defaultBlobSize; defaultBlobSize].
Proof. vm_compute. repeat split. Qed.

Lemma Attr_blocks_witness :
  (Attr exampleFile zeroAttr).2 = None /\
  a_BlockSize (Attr exampleFile zeroAttr).1 = 512 /\
  a_Blocks (Attr exampleFile zeroAttr).1 = Size (node exampleFile) / 512 + 1 /\
  (Size (node exampleFile) = 0 -> a_Blocks (Attr exampleFile zeroAttr).1 = 1) /\
  (Size (node exampleFile) = 512 -> a_Blocks (Attr exampleFile zeroAttr).1 = 2) /\
  (Size (node exampleFile) = 1024 -> a_Blocks (Attr exampleFile zeroAttr).1 = 3).
Proof.
  apply (Attr_blocks exampleFile zeroAttr). by_computation.
Defined.

Example example_block_counts :
  (fun sz => a_Blocks (Attr (mkFile (memRepo twoBlobs) (exampleNode sz [])
                                    false [] []) zeroAttr).1)
    <$> [0; 511; 512; 1024] = [1; 1; 2; 3].
Proof. reflexivity. Qed.

Lemma Read_negative_offset_witness :
  Read exampleFile (mkReq (-1) 10) (freshResponse 10) emptyWorld =
    (Err errOffset, exampleFile, emptyWorld) /\
  loaded (Read exampleFile (mkReq (-1) 10) (freshResponse 10) emptyWorld).2 =
    loaded emptyWorld /\
  blobs (Read exampleFile (mkReq (-1) 10) (freshResponse 10) emptyWorld).1.2 =
    blobs exampleFile.
Proof.
  apply (Read_negative_offset exampleFile (mkReq (-1) 10) (freshResponse 10)
           emptyWorld); by_computation.
Defined.

(** ** Further properties of the virtual file *)

Section FileMore.

Context {ID : Type}.
Implicit Types (f : @file ID) (w : @world ID) (r : @BlobLoader ID).
Implicit Types (n : @Node ID) (chunks : list (list Byte.byte)).

(** X1: the buffer [getBlobAt] hands to [LoadBlob] is stretched to its
    capacity and is at least as long as the blob's looked-up size, whether
    it comes from the pool or is made for the blob. *)
Theorem pickBuffer_fits f i w buf w1 size :
  pickBuffer f i w = (Ok buf, w1) ->
  index (sizes f) i = Ok size ->
  size <= lenZ (arr buf) /\ len buf = cap buf.
Proof.
  unfold pickBuffer. intros Hpick Hidx.
  destruct (poolGet w) as [[b| |] w0]; try discriminate.
  rewrite reslice_ok in Hpick by (pose proof (cap_nonneg b); lia).
  rewrite Hidx in Hpick. cbn [len] in Hpick.
  destruct (Z.ltb_spec (uint (cap b)) size) as [Hlt|Hge].
  - unfold make in Hpick.
    destruct (Z.ltb_spec size 0); [discriminate|].
    destruct (Z.ltb_spec maxInt size); [discriminate|].
    cbn in Hpick. injection Hpick as <- _.
    unfold cap, lenZ. cbn [arr len]. rewrite length_replicate. lia.
  - injection Hpick as <- _. unfold lenZ, cap in *. cbn [arr len].
    pose proof (uint64_le (Z.of_nat (length (arr b)))). unfold uint in Hge. lia.
Qed.

Lemma getBlobAt_frame f j w :
  node (getBlobAt f j w).1.2 = node f /\
  sizes (getBlobAt f j w).1.2 = sizes f /\
  repo (getBlobAt f j w).1.2 = repo f /\
  ownerIsRoot (getBlobAt f j w).1.2 = ownerIsRoot f.
Proof.
  unfold getBlobAt.
  destruct (index (blobs f) j) as [[b'|]| |]; cbn; try tauto.
  destruct (pickBuffer f j w) as [[buf| |] w1]; cbn; try tauto.
  destruct (index (Content (node f)) j); cbn; try tauto.
  destruct (LoadBlob (repo f) DataBlob a (arr buf)) as [[m [e|]] arr'];
    cbn; try tauto.
  destruct (reslice buf m); cbn; tauto.
Qed.

(** A blob [getBlobAt] returns is in the cache afterwards. *)
Lemma getBlobAt_Ok_cached f i w b f1 w1 :
  getBlobAt f i w = (Ok b, f1, w1) ->
  0 <= i /\ blobs f1 !! Z.to_nat i = Some (Some b).
Proof.
  unfold getBlobAt.
  destruct (index (blobs f) i) as [[b'|]| |] eqn:Hidx; try discriminate.
  - intros [= <- <- <-]. apply index_inv in Hidx. exact Hidx.
  - destruct (pickBuffer f i w) as [[buf| |] w0]; try discriminate.
    destruct (index (Content (node f)) i); try discriminate.
    destruct (LoadBlob (repo f) DataBlob a (arr buf)) as [[m [e|]] arr'];
      try discriminate.
    destruct (reslice buf m); try discriminate.
    intros [= <- <- <-]. apply index_inv in Hidx as [Hi Hnone].
    split; [exact Hi|]. cbn. apply list_lookup_insert_eq.
    eapply lookup_lt_Some. exact Hnone.
Qed.

(** Running the copy loop again, on a file that has at least the blobs
    cached that the first run left, gives the same result and changes
    nothing. *)
Lemma readLoop_again k : forall i off c f w c' f' w',
  readLoop k i off c f w = (Ok c', f', w') ->
  forall f2 w2,
    (forall j b, blobs f' !! j = Some (Some b) -> blobs f2 !! j = Some (Some b)) ->
    readLoop k i off c f2 w2 = (Ok c', f2, w2).
Proof.
  induction k as [|k IH]; intros i off c f w c' f' w' Hrun f2 w2 Hcached;
    cbn in Hrun |- *.
  - injection Hrun as <- _ _. reflexivity.
  - destruct (remainingBytes c >? 0); [|injection Hrun as <- _ _; reflexivity].
    destruct (getBlobAt f i w) as [[[b| |] f1] w1] eqn:Hget; try discriminate.
    destruct (getBlobAt_Ok_cached _ _ _ _ _ _ Hget) as [Hi Hb].
    assert (Hb' : blobs f' !! Z.to_nat i = Some (Some b)).
    { match type of Hrun with
      | match ?cut with _ => _ end = _ => destruct cut as [[blob o]| |]
      end; try discriminate.
      pose proof (readLoop_preserves (fun g => blobs g !! Z.to_nat i = Some (Some b))
                    (fun g j w0 => getBlobAt_keeps g j w0 _ b)
                    k (i + 1) o
                    (mkCopy (out c ++ take (Z.to_nat (Z.min (dstLen c) (Z.of_nat (length blob)))) blob)
                            (dstLen c - Z.min (dstLen c) (Z.of_nat (length blob)))
                            (readBytes c + Z.min (dstLen c) (Z.of_nat (length blob)))
                            (remainingBytes c - Z.min (dstLen c) (Z.of_nat (length blob))))
                    f1 w1 Hb) as Hkeep.
      rewrite Hrun in Hkeep. exact Hkeep. }
    rewrite (getBlobAt_cached f2 i w2 b Hi (Hcached _ _ Hb')).
    cbv zeta in Hrun |- *.
    destruct (if off >? 0 then _ else _) as [[blob o]| |]; try discriminate.
    eapply IH; eassumption.
Qed.

(** X2: a [Read] that has succeeded can be repeated: the same request on
    the file it left returns the same response, and changes neither the
    file nor the pool nor the log of loads, so every blob it needs comes
    from the cache. *)
Theorem Read_again f req resp w resp' f' w' :
  Read f req resp w = (Ok resp', f', w') ->
  forall w2, Read f' req resp w2 = (Ok resp', f', w2).
Proof.
  intros Hread w2.
  pose proof (Read_preserves (fun g => node g = node f /\ sizes g = sizes f)
                (fun g j w0 Hg => conj
                   (eq_trans (proj1 (getBlobAt_frame g j w0)) (proj1 Hg))
                   (eq_trans (proj1 (proj2 (getBlobAt_frame g j w0))) (proj2 Hg)))
                f req resp w (conj eq_refl eq_refl)) as Hframe.
  rewrite Hread in Hframe. cbn in Hframe. destruct Hframe as [Hnode Hsizes].
  unfold Read in Hread |- *. rewrite Hnode, Hsizes.
  destruct (uint64 (req_Offset req) >? Size (node f)); [discriminate|].
  destruct (Size (node f) =? 0).
  { destruct (reslice (resp_Data resp) 0); try discriminate.
    injection Hread as <- <- _. reflexivity. }
  destruct (skipBlobs (sizes f) (req_Offset req) 0) as [[off k]| |];
    try discriminate.
  destruct (reslice (resp_Data resp) (req_Size req)) as [dst| |];
    try discriminate.
  destruct (readLoop _ k off _ f w) as [[[c'| |] f1] w1] eqn:Hloop;
    try discriminate.
  destruct (reslice _ (readBytes c')) as [d| |] eqn:Hd; try discriminate.
  injection Hread as <- <- _.
  rewrite (readLoop_again _ _ _ _ _ _ _ _ _ Hloop f1 w2) by auto.
  rewrite Hd. reflexivity.
Qed.

(** X3: a [Read] of length 0 at an offset within the file returns no bytes
    and touches neither the cache nor the pool nor the repository. *)
Theorem Read_zero_length f chunks req resp w :
  VirtualFile f chunks ->
  0 <= req_Offset req <= Size (node f) -> req_Offset req <= maxInt ->
  req_Size req = 0 ->
  Read f req resp w = (Ok (mkResp (mkSlice (arr (resp_Data resp)) 0)), f, w).
Proof.
  intros Hvf Hoff Hmax Hzero. pose proof Hvf as [].
  unfold Read. rewrite uint64_small by lia.
  destruct (Z.gtb_spec (req_Offset req) (Size (node f))) as [?|_]; [lia|].
  pose proof (cap_nonneg (resp_Data resp)) as Hcap.
  destruct (Z.eqb_spec (Size (node f)) 0) as [Hsz|Hnz].
  - rewrite reslice_ok by lia. reflexivity.
  - destruct (skipBlobs_ok chunks (req_Offset req) 0)
      as (off' & j & Hskip & _); [|exact vf_fits0|lia|exact Hmax|].
    { intros ->. unfold lenZ in vf_size0. cbn in vf_size0. lia. }
    rewrite vf_sizes0, Hskip, Hzero. rewrite reslice_ok by lia.
    rewrite readLoop_nothing_left by (cbn; lia). cbn [out readBytes].
    rewrite reslice_ok by (unfold cap; cbn; lia). reflexivity.
Qed.

(** X4: a released handle can be read again: [Read] after [Release]
    returns the bytes [Read] returns before it. *)
Theorem Read_after_Release f chunks req resp w :
  VirtualFile f chunks ->
  0 <= req_Offset req <= Size (node f) -> req_Offset req <= maxInt ->
  0 <= req_Size req <= cap (resp_Data resp) ->
  exists resp0 f0 w0 resp1 f1 w1,
    Read f req resp w = (Ok resp0, f0, w0) /\
    Read (Release f w).1.2 req resp (Release f w).2 = (Ok resp1, f1, w1) /\
    bytes (resp_Data resp1) = bytes (resp_Data resp0) /\
    len (resp_Data resp1) = len (resp_Data resp0).
Proof.
  intros Hvf Hoff Hmax Hsize.
  destruct (Read_ok f chunks req resp w Hvf Hoff Hmax Hsize)
    as (resp0 & f0 & w0 & H0 & Hb0 & Hl0 & _).
  pose proof (Release_VirtualFile chunks f w Hvf) as Hvf'.
  destruct (Read_ok (Release f w).1.2 chunks req resp (Release f w).2 Hvf')
    as (resp1 & f1 & w1 & H1 & Hb1 & Hl1 & _); [|exact Hmax|exact Hsize|].
  { unfold Release. rewrite releaseBlobs_spec. cbn. exact Hoff. }
  exists resp0, f0, w0, resp1, f1, w1.
  rewrite Hb0, Hb1, Hl0, Hl1. repeat split; assumption.
Qed.

Lemma lookupSizes_inv r (content : list ID) : forall acc (ss : list Z) total,
  lookupSizes r content acc = Ok (ss, total) ->
  Forall2 (fun id s => LookupBlobSize r id DataBlob = (s, None)) content ss.
Proof.
  induction content as [|id content IH]; intros acc ss total; cbn.
  - intros [= <- _]. constructor.
  - destruct (LookupBlobSize r id DataBlob) as [size [e|]] eqn:Hid;
      [discriminate|].
    destruct (lookupSizes r content _) as [[ss' total']| |] eqn:Hrest;
      try discriminate.
    intros [= <- _]. constructor; [exact Hid|]. eapply IH. exact Hrest.
Qed.

(** X5: the file [newFile] returns holds, in content order, exactly the
    sizes the repository looked up without error, an empty cache slot per
    identifier, and the node with nothing but its size replaced, by the sum
    of the sizes in [uint64]. *)
Theorem newFile_inv r n root f :
  newFile r n root = Ok f ->
  repo f = r /\ ownerIsRoot f = root /\
  Forall2 (fun id s => LookupBlobSize r id DataBlob = (s, None))
          (Content n) (sizes f) /\
  blobs f = replicate (length (Content n)) None /\
  node f = setSize n (uint64 (sumZ (sizes f))).
Proof.
  intros Hnew.
  assert (Hss : Forall2 (fun id s => LookupBlobSize r id DataBlob = (s, None))
                  (Content n) (sizes f)).
  { unfold newFile in Hnew.
    destruct (lookupSizes r (Content n) 0) as [[ss total]| |] eqn:Hl;
      try discriminate.
    injection Hnew as <-. cbn. eapply lookupSizes_inv. exact Hl. }
  unfold newFile in Hnew.
  rewrite (lookupSizes_ok r _ _ Hss 0) in Hnew by lia.
  rewrite Z.add_0_l in Hnew. injection Hnew as Hf.
  rewrite <- Hf at 1 2 4 5. cbn.
  split; [reflexivity|]. split; [reflexivity|]. split; [exact Hss|].
  split; [reflexivity|].
  destruct (Z.eqb_spec (uint64 (sumZ (sizes f))) (Size n)) as [Heq|Hne];
    cbn; [|reflexivity].
  rewrite Heq. destruct n; reflexivity.
Qed.

(** X6: when the file is not empty, its first blob (whose looked-up size
    is not negative as the [int64] that [Read] compares the offset with)
    is not cached, a buffer for it is obtained and the load into that
    buffer fails, a [Read] of at least one byte at offset 0 returns the
    load's error as it is, after that one load, and leaves the file as it
    was. *)
Theorem Read_load_error f req resp w size buf w1 id e :
  0 < Size (node f) < 2 ^ 64 ->
  req_Offset req = 0 -> 0 < req_Size req <= cap (resp_Data resp) ->
  index (sizes f) 0 = Ok size -> 0 <= int64 size ->
  index (blobs f) 0 = Ok None ->
  pickBuffer f 0 w = (Ok buf, w1) ->
  index (Content (node f)) 0 = Ok id ->
  (LoadBlob (repo f) DataBlob id (arr buf)).1.2 = Some e ->
  Read f req resp w = (Err e, f, logLoad id w1) /\
  loaded (logLoad id w1) = loaded w ++ [id].
Proof.
  intros Hsz Hoff Hlen Hsize Hrange Hblob Hpick Hid Hload.
  assert (Hget : getBlobAt f 0 w = (Err e, f, logLoad id w1)).
  { unfold getBlobAt. rewrite Hblob, Hpick, Hid.
    destruct (LoadBlob (repo f) DataBlob id (arr buf)) as [[m oe] arr'].
    cbn in Hload. rewrite Hload. reflexivity. }
  split; [|cbn; rewrite (pickBuffer_loaded _ _ _ _ _ Hpick); reflexivity].
  unfold Read. rewrite Hoff. rewrite uint64_small by lia.
  destruct (Z.gtb_spec 0 (Size (node f))); [lia|].
  destruct (Z.eqb_spec (Size (node f)) 0); [lia|].
  apply index_inv in Hsize as [_ Hs0].
  destruct (sizes f) as [|s0 rest] eqn:Hsizes; [discriminate|].
  cbn in Hs0. injection Hs0 as ->.
  cbn [skipBlobs].
  destruct (Z.gtb_spec 0 (int64 size)); [lia|].
  rewrite reslice_ok by lia. cbn [len length].
  replace (Z.to_nat (Z.of_nat (S (length rest)) - 0)) with (S (length rest)) by lia.
  cbn [readLoop remainingBytes].
  destruct (Z.gtb_spec (req_Size req) 0); [|lia].
  rewrite Hget. reflexivity.
Qed.

End FileMore.

Lemma pickBuffer_fits_witness :
  100 <= lenZ (arr defaultBuffer) /\ len defaultBuffer = cap defaultBuffer.
Proof.
  apply (pickBuffer_fits exampleFile 0 emptyWorld defaultBuffer emptyWorld 100).
  - apply (pickBuffer_fresh exampleFile 0 emptyWorld 100);
      [reflexivity | reflexivity | by_computation].
  - reflexivity.
Defined.

Lemma Read_again_witness :
  exists resp' f' w',
    Read exampleFile (mkReq 90 30) (freshResponse 30) emptyWorld =
      (Ok resp', f', w') /\
    forall w2,
      Read f' (mkReq 90 30) (freshResponse 30) w2 = (Ok resp', f', w2).
Proof.
  destruct (Read_ok exampleFile twoChunks (mkReq 90 30) (freshResponse 30)
              emptyWorld exampleFile_VirtualFile)
    as (resp' & f' & w' & Hread & _); [by_computation..|].
  exists resp', f', w'. split; [exact Hread|].
  exact (Read_again exampleFile (mkReq 90 30) (freshResponse 30) emptyWorld
           resp' f' w' Hread).
Defined.

Lemma Read_zero_length_witness :
  Read exampleFile (mkReq 90 0) (freshResponse 30) emptyWorld =
  (Ok (mkResp (mkSlice (arr (resp_Data (freshResponse 30))) 0)),
   exampleFile, emptyWorld).
Proof.
  apply (Read_zero_length exampleFile twoChunks (mkReq 90 0) (freshResponse 30)
           emptyWorld).
  - exact exampleFile_VirtualFile.
  - by_computation.
  - by_computation.
  - reflexivity.
Defined.

Lemma Read_after_Release_witness :
  exists resp0 f0 w0 resp1 f1 w1,
    Read exampleFile (mkReq 90 30) (freshResponse 30) emptyWorld =
      (Ok resp0, f0, w0) /\
    Read (Release exampleFile emptyWorld).1.2 (mkReq 90 30) (freshResponse 30)
         (Release exampleFile emptyWorld).2 = (Ok resp1, f1, w1) /\
    bytes (resp_Data resp1) = bytes (resp_Data resp0) /\
    len (resp_Data resp1) = len (resp_Data resp0).
Proof.
  apply (Read_after_Release exampleFile twoChunks (mkReq 90 30)
           (freshResponse 30) emptyWorld).
  - exact exampleFile_VirtualFile.
  - by_computation.
  - by_computation.
  - by_computation.
Defined.

Lemma newFile_inv_witness :
  repo exampleFile = memRepo twoBlobs /\ ownerIsRoot exampleFile = false /\
  Forall2 (fun id s => LookupBlobSize (memRepo twoBlobs) id DataBlob = (s, None))
          (Content (exampleNode 200 [1; 2]%nat)) (sizes exampleFile) /\
  blobs exampleFile =
    replicate (length (Content (exampleNode 200 [1; 2]%nat))) None /\
  node exampleFile =
    setSize (exampleNode 200 [1; 2]%nat) (uint64 (sumZ (sizes exampleFile))).
Proof.
  apply (newFile_inv (memRepo twoBlobs) (exampleNode 200 [1; 2]%nat) false
           exampleFile).
  reflexivity.
Defined.

Lemma Read_load_error_witness :
  Read unreadableFile (mkReq 0 10) (freshResponse 10) emptyWorld =
    (Err "load failed"%string, unreadableFile, logLoad 1%nat emptyWorld) /\
  loaded (logLoad 1%nat emptyWorld) = loaded emptyWorld ++ [1%nat].
Proof.
  apply (Read_load_error unreadableFile (mkReq 0 10) (freshResponse 10)
           emptyWorld 100 defaultBuffer emptyWorld 1%nat "load failed"%string).
  - by_computation.
  - reflexivity.
  - by_computation.
  - reflexivity.
  - by_computation.
  - reflexivity.
  - apply (pickBuffer_fresh unreadableFile 0 emptyWorld 100);
      [reflexivity | reflexivity | by_computation].
  - reflexivity.
  - reflexivity.
Defined.

(** ** Properties of the WebDAV backend *)

Lemma substring_all (s : string) : substring 0 (String.length s) s = s.
Proof. induction s as [|c s IH]; cbn; [reflexivity | rewrite IH; reflexivity]. Qed.

Lemma prefix_split (p : string) : forall s,
  String.prefix p s = true ->
  s = (p ++ substring (String.length p) (String.length s - String.length p) s)%string.
Proof.
  induction p as [|c p IH]; intros s Hp; cbn.
  - rewrite Nat.sub_0_r, substring_all. reflexivity.
  - destruct s as [|c' s]; [discriminate|]. cbn in Hp |- *.
    destruct (Ascii.ascii_dec c c') as [<-|]; [|discriminate].
    f_equal. apply IH. exact Hp.
Qed.

Lemma prefix_append (p s : string) : String.prefix p (p ++ s) = true.
Proof.
  induction p as [|c p IH]; cbn; [destruct s; reflexivity|].
  destruct (Ascii.ascii_dec c c); [exact IH|congruence].
Qed.

Lemma substring_append (p s : string) :
  substring (String.length p) (String.length (p ++ s) - String.length p)
            (p ++ s) = s.
Proof.
  induction p as [|c p IH]; cbn.
  - rewrite Nat.sub_0_r. apply substring_all.
  - exact IH.
Qed.

(** Unfolding one step of a call on the backend. *)
Ltac unfold_actions :=
  unfold andThen, recvPermit, sendPermit, emit, result, panics in *;
  cbn [tokens wire fst snd] in *.

Section BackendProperties.

Context {URL : Type}.
Variable L : @library URL.
Implicit Types (b : @webdavBackend URL) (h : Handle) (st : netState).

(** X7: [ParseConfig] accepts exactly the strings that are [webdav:]
    followed by something [url.Parse] accepts, and the configuration holds
    the URL parsed from what follows the prefix. *)
Theorem ParseConfig_accepts (s : string) (cfg : Config) :
  ParseConfig L s = Ok cfg <->
  exists rest,
    s = ("webdav:" ++ rest)%string /\ url_Parse L rest = (cfg_URL cfg, None).
Proof.
  unfold ParseConfig. split.
  - destruct (String.prefix "webdav:" s) eqn:Hp; [|discriminate]. cbn [negb].
    pose proof (prefix_split "webdav:" s Hp) as Hs. cbn [String.length] in Hs.
    destruct (url_Parse L _) as [u [e|]] eqn:Hu; [discriminate|].
    intros [= <-]. eexists. split; [exact Hs|]. exact Hu.
  - intros (rest & -> & Hu).
    rewrite prefix_append. cbn [negb].
    pose proof (substring_append "webdav:" rest) as Hsub.
    cbn [String.length] in Hsub. rewrite Hsub, Hu.
    destruct cfg. reflexivity.
Qed.

(** X8: when [Stat] returns without error, the handle is valid, the server
    answered the HEAD request with status 200, the body was closed without
    error, and the size reported is the content length, which is not
    negative; the permit is back in [connChan]. *)
Theorem Stat_ok b h st info st' :
  Stat L b h st = (Returns (info, None), st') ->
  0 <= fi_Size info /\ Handle_Valid L h = None /\
  (exists r,
     client_Head (b_client b) (restPath L (b_url b) h) = (Some r, None) /\
     StatusCode r = 200 /\ ContentLength r = fi_Size info /\
     BodyClose r = None) /\
  tokens st' = tokens st /\
  wire st' = wire st ++ [EvHead (restPath L (b_url b) h); EvClose].
Proof.
  unfold Stat. destruct (Handle_Valid L h); [discriminate|].
  unfold_actions. intros H.
  repeat (case_match; cbn [tokens wire] in *; try discriminate).
  simplify_eq. cbn.
  repeat match goal with
  | H : (_ <=? _) = false |- _ => apply Z.leb_gt in H
  | H : (_ <? _) = false |- _ => apply Z.ltb_ge in H
  | H : negb (_ =? _) = false |- _ =>
      apply negb_false_iff, Z.eqb_eq in H
  end.
  split; [assumption|]. split; [reflexivity|].
  split; [eexists; eauto|]. split; [lia|].
  rewrite <- app_assoc. reflexivity.
Qed.

(** X9: [Test] never returns an error: it returns [true] exactly when
    [Stat] of the handle returns without error, and [false] for every
    error of [Stat], an invalid handle included. *)
Theorem Test_never_errors b (t name : string) st ok err st' :
  Test L b t name st = (Returns (ok, err), st') ->
  err = None /\
  (ok = true <->
   exists info, Stat L b (mkHandle t name) st = (Returns (info, None), st')).
Proof.
  unfold Test, andThen.
  destruct (Stat L b (mkHandle t name) st) as [[[info [e|]]| |] st1];
    try discriminate; unfold result; intros [= <- <- <-].
  - split; [reflexivity|]. split; [discriminate|]. intros [info' [=]].
  - split; [reflexivity|]. split; [eauto|reflexivity].
Qed.

Ltac bounds_of_tests :=
  repeat match goal with
  | H : (_ <=? _) = false |- _ => apply Z.leb_gt in H
  | H : (_ <=? _) = true |- _ => apply Z.leb_le in H
  | H : (_ <? _) = false |- _ => apply Z.ltb_ge in H
  | H : (_ <? _) = true |- _ => apply Z.ltb_lt in H
  | H : (_ >? _) = false |- _ => rewrite Z.gtb_ltb in H
  | H : (_ >? _) = true |- _ => rewrite Z.gtb_ltb in H
  | H : (_ =? _) = true |- _ => apply Z.eqb_eq in H
  | H : (_ =? _) = false |- _ => apply Z.eqb_neq in H
  | H : negb _ = false |- _ => apply negb_false_iff in H
  | H : negb _ = true |- _ => apply negb_true_iff in H
  | H : _ && _ = false |- _ => apply andb_false_iff in H
  | H : _ && _ = true |- _ => apply andb_true_iff in H as [? ?]
  end.

Lemma keepsPermits_andThen {A B} (m : action A) (k : A -> action B) st :
  keepsPermits m st ->
  (forall a st1, m st = (Returns a, st1) -> keepsPermits (k a) st1) ->
  keepsPermits (andThen m k) st.
Proof.
  unfold keepsPermits, andThen. intros [Hm1 Hm2] Hk.
  destruct (m st) as [[a| |] st1]; cbn in *.
  - destruct (Hk a st1 eq_refl) as [Hk1 Hk2].
    pose proof (Hm1 ltac:(discriminate)) as Ht. rewrite <- Ht.
    split; [exact Hk1|exact Hk2].
  - split; [congruence|]. intros Hperm. destruct (Hm2 Hperm). reflexivity.
  - split; [intros _; apply Hm1; discriminate|discriminate].
Qed.

Ltac run_call :=
  repeat (case_match; cbn [tokens wire fst snd] in *; try discriminate;
          try congruence);
  bounds_of_tests; simplify_eq; cbn [tokens wire fst snd] in *.

Ltac permits_by_cases :=
  unfold keepsPermits; unfold_actions;
  split; [intros Hnb | intros Hperm];
  run_call; first [lia | congruence | exfalso; unfold connLimit in *; lia].

Lemma Stat_permits b h st : keepsPermits (Stat L b h) st.
Proof. unfold Stat. permits_by_cases. Qed.

Lemma invertOffset_permits b h off st : keepsPermits (invertOffset L b h off) st.
Proof.
  unfold invertOffset. destruct (off <? 0); [|permits_by_cases].
  apply keepsPermits_andThen; [apply Stat_permits|].
  intros [info oe] st1 _. permits_by_cases.
Qed.



Lemma io_ReadFull_ok (body p p' : list Byte.byte) n :
  io_ReadFull body p = (n, None, p') ->
  n = lenZ p /\ (length p <= length body)%nat /\ p' = take (length p) body.
Proof.
  unfold io_ReadFull.
  destruct (Nat.leb_spec (length p) (length body)); [|case_match; discriminate].
  intros [= <- <-]. auto.
Qed.

Lemma Load_permits b h p off st : keepsPermits (Load L b h p off) st.
Proof.
  unfold Load. destruct (Handle_Valid L h); [permits_by_cases|].
  apply keepsPermits_andThen; [apply invertOffset_permits|].
  intros [off0 oe] st1 _. unfold deferredClose. permits_by_cases.
Qed.

Lemma Save_permits b h p st : keepsPermits (Save L b h p) st.
Proof. unfold Save, deferredClose. permits_by_cases. Qed.

Lemma Remove_permits b (t name : string) st :
  keepsPermits (Remove L b t name) st.
Proof. unfold Remove. permits_by_cases. Qed.

Lemma Test_permits b (t name : string) st : keepsPermits (Test L b t name) st.
Proof.
  unfold Test. apply keepsPermits_andThen; [apply Stat_permits|].
  intros [info oe] st1 _. permits_by_cases.
Qed.

(** X12: [Open] puts [connLimit] permits into [connChan]; every call of
    [Stat], [Test], [Load], [Save] and [Remove] that finds between one and
    [connLimit] permits does not stay blocked, and it leaves as many
    permits as it found, on its error paths too. *)
Theorem permits_conserved b h (t name : string) p off st net
    (cfg : @Config URL) :
  0 < tokens st <= connLimit ->
  Open net cfg = (Returns (mkBackend (cfg_URL cfg) net, None),
                  mkNet connLimit []) /\
  ((Stat L b h st).1 <> Blocks /\ tokens (Stat L b h st).2 = tokens st) /\
  ((Test L b t name st).1 <> Blocks /\
   tokens (Test L b t name st).2 = tokens st) /\
  ((Load L b h p off st).1 <> Blocks /\
   tokens (Load L b h p off st).2 = tokens st) /\
  ((Save L b h p st).1 <> Blocks /\ tokens (Save L b h p st).2 = tokens st) /\
  ((Remove L b t name st).1 <> Blocks /\
   tokens (Remove L b t name st).2 = tokens st).
Proof.
  intros Hperm. split; [reflexivity|].
  destruct (Stat_permits b h st) as [? ?].
  destruct (Test_permits b t name st) as [? ?].
  destruct (Load_permits b h p off st) as [? ?].
  destruct (Save_permits b h p st) as [? ?].
  destruct (Remove_permits b t name st) as [? ?].
  repeat split; auto.
Qed.

(** X13: when [Load] returns without error, [p] is filled completely: the
    handle is valid, the GET request built for the resource went out with
    a [Range] header, the server answered it with status 200 or 206 and at
    least [len(p)] bytes, the first [len(p)] of which are what [p] holds,
    and the body was closed without error. *)
Theorem Load_ok b h p off st n p' st' :
  Load L b h p off st = (Returns (n, None, p'), st') ->
  n = lenZ p /\ length p' = length p /\ Handle_Valid L h = None /\
  tokens st' = tokens st /\
  exists req0 off0 r,
    http_NewRequest L "GET" (restPath L (b_url b) h) None = (Some req0, None) /\
    client_Do (b_client b)
      (mkRequest (Method req0) (reqURL req0) (reqBody req0)
         (Header req0 ++
          [("Range",
            "bytes=" ++ string_of_Z off0 ++ "-" ++
            string_of_Z (int64 (off0 + int64 (lenZ p))))%string])) =
      (Some r, None) /\
    (StatusCode r = 200 \/ StatusCode r = 206) /\
    (length p <= length (Body r))%nat /\
    p' = take (length p) (Body r) /\ BodyClose r = None /\
    last (wire st') = Some EvClose.
Proof.
  intros Hload.
  pose proof (Load_permits b h p off st) as [Htok _].
  rewrite Hload in Htok. cbn in Htok. specialize (Htok ltac:(discriminate)).
  revert Hload. unfold Load.
  destruct (Handle_Valid L h); [discriminate|].
  unfold andThen at 1.
  destruct (invertOffset L b h off st) as [[[off0 [e|]]| |] st1];
    try discriminate.
  unfold deferredClose. unfold_actions. intros Hload.
  run_call.
  match goal with
  | H : io_ReadFull _ _ = _ |- _ => apply io_ReadFull_ok in H as (-> & Hlen & ->)
  end.
  match goal with
  | H : errors_Wrap (BodyClose ?r) _ = None |- _ =>
      destruct (BodyClose r) eqn:Hclose; [discriminate H|]
  end.
  split; [reflexivity|]. split; [rewrite length_take; lia|].
  split; [reflexivity|]. split; [exact Htok|].
  eexists _, off0, _. split; [reflexivity|]. split; [eassumption|].
  split.
  { match goal with
    | H : _ \/ _ |- _ =>
        destruct H as [H|H]; apply negb_false_iff, Z.eqb_eq in H; auto
    end. }
  split; [exact Hlen|]. split; [reflexivity|]. split; [exact Hclose|].
  apply last_snoc.
Qed.

(** X14: when [Save] returns without error, the handle is valid, the PUT
    request built for the resource with [p] as its body went out with the
    header [Translate: f], the server answered it with status 201, and the
    body was closed without error. *)
Theorem Save_ok b h p st st' :
  Save L b h p st = (Returns None, st') ->
  Handle_Valid L h = None /\ tokens st' = tokens st /\
  exists req0 r,
    http_NewRequest L "PUT" (restPath L (b_url b) h) (Some p) =
      (Some req0, None) /\
    let req := mkRequest (Method req0) (reqURL req0) (reqBody req0)
                 (Header req0 ++ [("Translate", "f")]%string) in
    client_Do (b_client b) req = (Some r, None) /\
    StatusCode r = 201 /\ BodyClose r = None /\
    wire st' = wire st ++ [EvDo req; EvClose].
Proof.
  unfold Save, deferredClose. unfold_actions. intros Hsave. run_call.
  match goal with
  | H : errors_Wrap (BodyClose ?r) _ = None |- _ =>
      destruct (BodyClose r) eqn:Hclose; [discriminate H|]
  end.
  split; [reflexivity|]. split; [lia|].
  eexists _, _. split; [reflexivity|]. cbv zeta.
  split; [eassumption|]. split; [assumption|]. split; [exact Hclose|].
  rewrite <- app_assoc. reflexivity.
Qed.

(** X15: when [Remove] returns without error, the handle is valid, the
    DELETE request built for the resource went out, the server answered it
    with status 200, and the body was closed without error. *)
Theorem Remove_ok b (t name : string) st st' :
  Remove L b t name st = (Returns None, st') ->
  Handle_Valid L (mkHandle t name) = None /\ tokens st' = tokens st /\
  exists req r,
    http_NewRequest L "DELETE" (restPath L (b_url b) (mkHandle t name)) None =
      (Some req, None) /\
    client_Do (b_client b) req = (Some r, None) /\
    StatusCode r = 200 /\ BodyClose r = None /\
    wire st' = wire st ++ [EvDo req; EvClose].
Proof.
  unfold Remove. unfold_actions. intros Hrm. run_call.
  split; [reflexivity|]. split; [lia|].
  eexists _, _. split; [reflexivity|].
  split; [eassumption|]. split; [assumption|]. split; [assumption|].
  rewrite <- app_assoc. reflexivity.
Qed.

(** X16: [Save] leaves no response open: whatever it returns, the events
    it adds to the wire do not end with a request that got a response;
    after such a request comes the closing of its body. *)
Theorem Save_closes_body b h p st x st' :
  Save L b h p st = (Returns x, st') ->
  exists added,
    wire st' = wire st ++ added /\
    forall req, last added = Some (EvDo req) ->
                (client_Do (b_client b) req).1 = None.
Proof.
  unfold Save, deferredClose. unfold_actions. intros Hsave. run_call.
  all: first
    [ exists []; split; [rewrite app_nil_r; reflexivity | intros req [=]]
    | eexists [_; _]; split; [rewrite <- app_assoc; reflexivity | intros req [=]]
    | eexists [_]; split; [reflexivity|];
      intros req [= <-];
      match goal with H : client_Do _ _ = _ |- _ => rewrite H end;
      reflexivity ].
Qed.

(** X17: when the server answers the DELETE request with a status other
    than 200, [Remove] returns the error "blob not removed" and does not
    close the body of the response. *)
Theorem Remove_not_removed b (t name : string) st req r :
  Handle_Valid L (mkHandle t name) = None ->
  http_NewRequest L "DELETE" (restPath L (b_url b) (mkHandle t name)) None =
    (Some req, None) ->
  0 < tokens st <= connLimit ->
  client_Do (b_client b) req = (Some r, None) ->
  StatusCode r <> 200 ->
  Remove L b t name st =
    (Returns (Some (errors_New "blob not removed")),
     mkNet (tokens st) (wire st ++ [EvDo req])).
Proof.
  intros Hvalid Hreq Hperm Hdo Hstatus. unfold Remove.
  rewrite Hvalid, Hreq. unfold_actions.
  assert (H1 : (tokens st <=? 0) = false) by (apply Z.leb_gt; lia).
  assert (H2 : (connLimit <=? tokens st - 1) = false) by (apply Z.leb_gt; lia).
  assert (H3 : (StatusCode r =? 200) = false) by (apply Z.eqb_neq; exact Hstatus).
  rewrite H1. cbn [tokens wire]. rewrite Hdo. cbn [tokens wire].
  rewrite H2, H3. cbn. f_equal. f_equal. lia.
Qed.

End BackendProperties.

(** ** Examples: calls on the backend *)

Example example_restPath :
  restPath exampleLibrary "http://host/repo"%string dataHandle =
    "http://host/repo/data/abc"%string /\
  restPath exampleLibrary "http://host/repo"%string (mkHandle "config" "any") =
    "http://host/repo/config"%string.
Proof. split; reflexivity. Qed.

Lemma Stat_ok_witness :
  0 <= fi_Size (mkFileInfo 10) /\
  Handle_Valid exampleLibrary dataHandle = None /\
  (exists r,
     client_Head (b_client exampleBackend)
       (restPath exampleLibrary (b_url exampleBackend) dataHandle) =
       (Some r, None) /\
     StatusCode r = 200 /\ ContentLength r = fi_Size (mkFileInfo 10) /\
     BodyClose r = None) /\
  tokens (mkNet connLimit
            [EvHead "http://host/repo/data/abc"; EvClose]) =
    tokens allPermits /\
  wire (mkNet connLimit [EvHead "http://host/repo/data/abc"; EvClose]) =
    wire allPermits ++
    [EvHead (restPath exampleLibrary (b_url exampleBackend) dataHandle);
     EvClose].
Proof.
  apply (Stat_ok exampleLibrary exampleBackend dataHandle allPermits
           (mkFileInfo 10)
           (mkNet connLimit [EvHead "http://host/repo/data/abc"; EvClose])).
  reflexivity.
Defined.

Lemma Test_never_errors_witness :
  @None error = None /\
  (false = true <->
   exists info,
     Stat exampleLibrary exampleBackend (mkHandle "key" "") allPermits =
       (Returns (info, None), allPermits)).
Proof.
  apply (Test_never_errors exampleLibrary exampleBackend "key" "" allPermits
           false None allPermits).
  reflexivity.
Defined.



Lemma permits_conserved_witness :
  Open exampleServer (mkConfig "http://host/repo"%string) =
    (Returns (mkBackend (cfg_URL (mkConfig "http://host/repo"%string))
                        exampleServer, None),
     mkNet connLimit []) /\
  ((Stat exampleLibrary exampleBackend dataHandle (mkNet 1 [])).1 <> Blocks /\
   tokens (Stat exampleLibrary exampleBackend dataHandle (mkNet 1 [])).2 =
     tokens (mkNet 1 [])) /\
  ((Test exampleLibrary exampleBackend "key" "k" (mkNet 1 [])).1 <> Blocks /\
   tokens (Test exampleLibrary exampleBackend "key" "k" (mkNet 1 [])).2 =
     tokens (mkNet 1 [])) /\
  ((Load exampleLibrary exampleBackend dataHandle [Byte.x00] (-4)
         (mkNet 1 [])).1 <> Blocks /\
   tokens (Load exampleLibrary exampleBackend dataHandle [Byte.x00] (-4)
                (mkNet 1 [])).2 = tokens (mkNet 1 [])) /\
  ((Save exampleLibrary exampleBackend dataHandle [Byte.x00]
         (mkNet 1 [])).1 <> Blocks /\
   tokens (Save exampleLibrary exampleBackend dataHandle [Byte.x00]
                (mkNet 1 [])).2 = tokens (mkNet 1 [])) /\
  ((Remove exampleLibrary exampleBackend "key" "k" (mkNet 1 [])).1 <> Blocks /\
   tokens (Remove exampleLibrary exampleBackend "key" "k" (mkNet 1 [])).2 =
     tokens (mkNet 1 [])).
Proof.
  apply (permits_conserved exampleLibrary exampleBackend dataHandle "key" "k"
           [Byte.x00] (-4) (mkNet 1 []) exampleServer
           (mkConfig "http://host/repo"%string)).
  by_computation.
Defined.

Example example_no_permit :
  (Save exampleLibrary exampleBackend dataHandle [Byte.x00] (mkNet 0 [])).1 =
  Blocks.
Proof. reflexivity. Qed.

Lemma Load_ok_witness :
  2 = lenZ [Byte.x00; Byte.x00] /\
  length [Byte.x01; Byte.x02] = length [Byte.x00; Byte.x00] /\
  Handle_Valid exampleLibrary dataHandle = None /\
  tokens (mkNet connLimit [EvDo rangeRequest; EvClose]) = tokens allPermits /\
  exists req0 off0 r,
    http_NewRequest exampleLibrary "GET"
      (restPath exampleLibrary (b_url exampleBackend) dataHandle) None =
      (Some req0, None) /\
    client_Do (b_client exampleBackend)
      (mkRequest (Method req0) (reqURL req0) (reqBody req0)
         (Header req0 ++
          [("Range",
            "bytes=" ++ string_of_Z off0 ++ "-" ++
            string_of_Z (int64 (off0 + int64 (lenZ [Byte.x00; Byte.x00]))))%string])) =
      (Some r, None) /\
    (StatusCode r = 200 \/ StatusCode r = 206) /\
    (length [Byte.x00; Byte.x00] <= length (Body r))%nat /\
    [Byte.x01; Byte.x02] = take (length [Byte.x00; Byte.x00]) (Body r) /\
    BodyClose r = None /\
    last (wire (mkNet connLimit [EvDo rangeRequest; EvClose])) = Some EvClose.
Proof.
  apply (Load_ok exampleLibrary exampleBackend dataHandle
           [Byte.x00; Byte.x00] 1 allPermits 2 [Byte.x01; Byte.x02]
           (mkNet connLimit [EvDo rangeRequest; EvClose])).
  reflexivity.
Defined.

Lemma Save_ok_witness :
  Handle_Valid exampleLibrary dataHandle = None /\
  tokens (mkNet connLimit [EvDo putRequest; EvClose]) = tokens allPermits /\
  exists req0 r,
    http_NewRequest exampleLibrary "PUT"
      (restPath exampleLibrary (b_url exampleBackend) dataHandle)
      (Some [Byte.x07]) = (Some req0, None) /\
    let req := mkRequest (Method req0) (reqURL req0) (reqBody req0)
                 (Header req0 ++ [("Translate", "f")]%string) in
    client_Do (b_client exampleBackend) req = (Some r, None) /\
    StatusCode r = 201 /\ BodyClose r = None /\
    wire (mkNet connLimit [EvDo putRequest; EvClose]) =
      wire allPermits ++ [EvDo req; EvClose].
Proof.
  apply (Save_ok exampleLibrary exampleBackend dataHandle [Byte.x07]
           allPermits (mkNet connLimit [EvDo putRequest; EvClose])).
  reflexivity.
Defined.

Lemma Remove_ok_witness :
  Handle_Valid exampleLibrary (mkHandle "key" "k1") = None /\
  tokens (mkNet connLimit [EvDo (deleteRequest "k1"); EvClose]) =
    tokens allPermits /\
  exists req r,
    http_NewRequest exampleLibrary "DELETE"
      (restPath exampleLibrary (b_url exampleBackend) (mkHandle "key" "k1"))
      None = (Some req, None) /\
    client_Do (b_client exampleBackend) req = (Some r, None) /\
    StatusCode r = 200 /\ BodyClose r = None /\
    wire (mkNet connLimit [EvDo (deleteRequest "k1"); EvClose]) =
      wire allPermits ++ [EvDo req; EvClose].
Proof.
  apply (Remove_ok exampleLibrary exampleBackend "key" "k1" allPermits
           (mkNet connLimit [EvDo (deleteRequest "k1"); EvClose])).
  reflexivity.
Defined.

Lemma Save_closes_body_witness :
  exists added,
    wire (mkNet connLimit [EvDo putRequest; EvClose]) =
      wire allPermits ++ added /\
    forall req, last added = Some (EvDo req) ->
                (client_Do (b_client exampleBackend) req).1 = None.
Proof.
  apply (Save_closes_body exampleLibrary exampleBackend dataHandle [Byte.x07]
           allPermits None (mkNet connLimit [EvDo putRequest; EvClose])).
  reflexivity.
Defined.

Lemma Remove_not_removed_witness :
  Remove exampleLibrary exampleBackend "key" "gone" allPermits =
    (Returns (Some (errors_New "blob not removed")),
     mkNet (tokens allPermits)
           (wire allPermits ++ [EvDo (deleteRequest "gone")])).
Proof.
  apply (Remove_not_removed exampleLibrary exampleBackend "key" "gone"
           allPermits (deleteRequest "gone") (mkHTTPResponse 404 0 [] None)).
  - reflexivity.
  - reflexivity.
  - by_computation.
  - reflexivity.
  - by_computation.
Defined.
